(** * Timetable optimizer: a shallow embedding of [scrapping_scripts/optimal.py]

    The development follows the Python class [TimetableOptimizer]:
    the catalog indexer ([get_subject_activities]), the three preference
    scorers, the exhaustive combination search ([optimize_timetable]) and
    the result formatter ([format_output]).

    Modelling conventions.
    - Python dictionaries are insertion-ordered; the search order depends on
      that order, so a dictionary is an association list whose keys are
      pairwise distinct, in insertion order.
    - Activities are dictionaries of strings, as loaded from JSON; the
      fields read by the optimizer are the fields of the record [Activity].
    - [int(...)] and [time_str.split(':')] can raise; every function that
      can raise returns an [option], [None] standing for the exception.
    - Python floats are read as exact rationals extended with negative
      infinity ([pyfloat]); no rounding is modelled.  Where a statement
      depends on how rounded scores compare, the search is taken over an
      arbitrary type of scores ([AnyFloat]), and the scorer is also
      written over IEEE 754 binary64 numbers ([Binary64]).
    - Strings are byte strings; [str.lower] is the ASCII lower-casing.
      Statements about letter case are about ASCII text.
    - An index that walks a list ([current_idx], [group_idx]) is the
      suffix of the list still to visit.
    - The search state carries one ghost field, the log of the schedules
      passed to [score_activity_combination]. *)

From Stdlib Require Import List String Ascii ZArith QArith Lia Bool.
From Stdlib Require Import Permutation Sorted Arith.
Import ListNotations.

Local Open Scope string_scope.
Local Open Scope list_scope.
Local Open Scope Z_scope.

(** ** The exception monad *)

Definition bind {A B : Type} (m : option A) (k : A -> option B) : option B :=
  match m with
  | Some a => k a
  | None => None
  end.

Notation "x <- m ;; k" := (bind m (fun x => k))
  (at level 61, m at next level, right associativity).
Notation "' p <- m ;; k" := (bind m (fun x => let p := x in k))
  (at level 61, p pattern, m at next level, right associativity).

(** A [for] loop that threads an accumulator and stops at the first
    exception. *)
Fixpoint foldM {A S : Type} (body : S -> A -> option S) (l : list A) (s : S)
  : option S :=
  match l with
  | [] => Some s
  | x :: l' => s' <- body s x ;; foldM body l' s'
  end.

(** Evaluation of a generator expression, left to right. *)
Fixpoint mapM {A B : Type} (f : A -> option B) (l : list A) : option (list B) :=
  match l with
  | [] => Some []
  | x :: l' => y <- f x ;; ys <- mapM f l' ;; Some (y :: ys)
  end.

(** ** Python strings *)

Module PyStr.

Definition lower_ascii (c : ascii) : ascii :=
  let n := N_of_ascii c in
  if ((65 <=? n) && (n <=? 90))%N then ascii_of_N (n + 32) else c.

(** [s.lower()] *)
Fixpoint lower (s : string) : string :=
  match s with
  | EmptyString => EmptyString
  | String c s' => String (lower_ascii c) (lower s')
  end.

(** [s[:n]] *)
Fixpoint take (n : nat) (s : string) : string :=
  match n, s with
  | S n', String c s' => String c (take n' s')
  | _, _ => EmptyString
  end.

(** [s.split(sep)] for a one-character separator; [cur] is the piece
    being read. *)
Fixpoint split_aux (sep : ascii) (s : string) (cur : string) : list string :=
  match s with
  | EmptyString => [cur]
  | String c s' =>
      if Ascii.eqb c sep then cur :: split_aux sep s' EmptyString
      else split_aux sep s' (cur ++ String c EmptyString)
  end.

Definition split (sep : ascii) (s : string) : list string :=
  split_aux sep s EmptyString.

Definition digit_of_ascii (c : ascii) : option Z :=
  let n := Z.of_N (N_of_ascii c) in
  if (48 <=? n) && (n <=? 57) then Some (n - 48) else None.

Fixpoint parse_digits (s : string) (acc : Z) : option Z :=
  match s with
  | EmptyString => Some acc
  | String c s' =>
      d <- digit_of_ascii c ;; parse_digits s' (10 * acc + d)
  end.

(** [int(s)] on a decimal numeral with an optional sign.  Python also
    accepts surrounding blanks and underscores between digits; those
    spellings are outside the model and read as an exception here. *)
Definition int (s : string) : option Z :=
  match s with
  | EmptyString => None
  | String c s' =>
      if Ascii.eqb c "-" then
        match s' with
        | EmptyString => None
        | _ => n <- parse_digits s' 0 ;; Some (- n)
        end
      else if Ascii.eqb c "+" then
        match s' with
        | EmptyString => None
        | _ => parse_digits s' 0
        end
      else parse_digits s 0
  end.

End PyStr.

(** ** Python lists and dictionaries *)

(** [l[i]], raising on an index out of range. *)
Definition list_get {A : Type} (l : list A) (i : nat) : option A := nth_error l i.

(** [l.pop()]: the list after the call; raises on the empty list. *)
Definition list_pop {A : Type} (l : list A) : option (list A) :=
  match l with
  | [] => None
  | _ => Some (removelast l)
  end.

(** [range(lo, hi)] *)
Definition range (lo hi : nat) : list nat := seq lo (hi - lo).

Definition dict (V : Type) : Type := list (string * V).

Definition dict_keys {V : Type} (d : dict V) : list string := map fst d.

Definition dict_values {V : Type} (d : dict V) : list V := map snd d.

(** [d[k]] on a [defaultdict]: the stored value, or the default. *)
Fixpoint defaultdict_get {V : Type} (d : dict V) (k : string) (default : V) : V :=
  match d with
  | [] => default
  | (k', v) :: d' => if String.eqb k' k then v else defaultdict_get d' k default
  end.

(** [d[k] = f(d[k])] on a [defaultdict]: an existing key keeps its place,
    a new key goes last. *)
Fixpoint defaultdict_update {V : Type} (d : dict V) (k : string) (default : V)
  (f : V -> V) : dict V :=
  match d with
  | [] => [(k, f default)]
  | (k', v) :: d' =>
      if String.eqb k' k then (k', f v) :: d'
      else (k', v) :: defaultdict_update d' k default f
  end.

(** ** Python floats, read exactly *)

Inductive pyfloat : Type :=
| NegInf : pyfloat
| Fin : Q -> pyfloat.

(** [x > y] *)
Definition pf_gtb (x y : pyfloat) : bool :=
  match x, y with
  | NegInf, _ => false
  | Fin _, NegInf => true
  | Fin a, Fin b => match Qcompare a b with Gt => true | _ => false end
  end.

(** [x <= y] as a proposition, for statements. *)
Definition pf_le (x y : pyfloat) : Prop :=
  match x, y with
  | NegInf, _ => True
  | Fin _, NegInf => False
  | Fin a, Fin b => (a <= b)%Q
  end.

Definition pf_lt (x y : pyfloat) : Prop :=
  match x, y with
  | _, NegInf => False
  | NegInf, Fin _ => True
  | Fin a, Fin b => (a < b)%Q
  end.

Definition pf_eq (x y : pyfloat) : Prop :=
  match x, y with
  | NegInf, NegInf => True
  | Fin a, Fin b => (a == b)%Q
  | _, _ => False
  end.

(** ** The data model *)

(** The keys of an activity dictionary that the optimizer reads. *)
Record Activity : Type := {
  subject_code : string;
  activity_group_code : string;
  activity_code : string;
  day_of_week : string;
  start_time : string;
  duration : string
}.

(** One entry of [data['subjects']]. *)
Record Subject : Type := {
  subj_subject_code : string;
  subj_activities : dict Activity
}.

Record TimeRestrictions : Type := {
  tr_start : Z;
  tr_end : Z
}.

(** [data['optimization']] *)
Record Optimization : Type := {
  timeRestrictions : TimeRestrictions;
  avoidDays : list string
}.

Record Data : Type := {
  subjects : list Subject;
  optimization : Optimization
}.

(** subject code -> group code -> candidate activities *)
Definition Index : Type := dict (dict (list Activity)).

(** ** The class [TimetableOptimizer] *)

Module TimetableOptimizer.

(** [time_to_minutes]: ["HH:MM"] to minutes since midnight.  The
    unpacking [hours, minutes = ...] raises unless the split yields
    exactly two pieces. *)
Definition time_to_minutes (time_str : string) : option Z :=
  match PyStr.split ":" time_str with
  | [h; m] =>
      hours <- PyStr.int h ;;
      minutes <- PyStr.int m ;;
      Some (hours * 60 + minutes)
  | _ => None
  end.

(** [subject_activities[subject_code][group_code].append(activity)] *)
Definition index_append (sa : Index) (subject_code group_code : string)
  (activity : Activity) : Index :=
  defaultdict_update sa subject_code []
    (fun groups =>
       defaultdict_update groups group_code [] (fun l => l ++ [activity])).

(** [get_subject_activities]: the two nested [for] loops. *)
Definition get_subject_activities (data : Data) : Index :=
  fold_left
    (fun sa subject =>
       fold_left
         (fun sa activity =>
            index_append sa (subj_subject_code subject)
              (activity_group_code activity) activity)
         (dict_values (subj_activities subject)) sa)
    (subjects data) [].

(** [day.lower()[:3]] *)
Definition day_key (day : string) : string := PyStr.take 3 (PyStr.lower day).

(** [x in l] on a list of strings *)
Definition str_in (x : string) (l : list string) : bool :=
  existsb (String.eqb x) l.

Definition score_avoid_days (o : Optimization) (activity : Activity) : Q :=
  let avoid_days := map day_key (avoidDays o) in
  let activity_day := day_key (day_of_week activity) in
  if str_in activity_day avoid_days then 0%Q else 1%Q.

Definition score_time_restrictions (o : Optimization) (activity : Activity)
  : option Q :=
  start_time <- time_to_minutes (start_time activity) ;;
  duration <- PyStr.int (duration activity) ;;
  let end_time := start_time + duration in
  let allowed_start := tr_start (timeRestrictions o) * 60 in
  let allowed_end := tr_end (timeRestrictions o) * 60 in
  let start_deviation :=
    Z.max 0 (allowed_start - start_time) + Z.max 0 (start_time - allowed_end) in
  let end_deviation :=
    Z.max 0 (allowed_start - end_time) + Z.max 0 (end_time - allowed_end) in
  let total_deviation := start_deviation + end_deviation in
  let max_possible_deviation := 24 * 60 in
  Some (1 - inject_Z total_deviation / inject_Z max_possible_deviation)%Q.

Definition check_clash (activity1 activity2 : Activity) : option bool :=
  if negb (String.eqb (day_of_week activity1) (day_of_week activity2)) then
    Some false
  else
    start1 <- time_to_minutes (start_time activity1) ;;
    d1 <- PyStr.int (duration activity1) ;;
    let end1 := start1 + d1 in
    start2 <- time_to_minutes (start_time activity2) ;;
    d2 <- PyStr.int (duration activity2) ;;
    let end2 := start2 + d2 in
    Some (negb ((end1 <=? start2) || (end2 <=? start1))).

(** [sum(...)] over floats, from the left, starting at zero. *)
Definition sum (l : list Q) : Q := fold_left Qplus l 0%Q.

(** [len(activities)] as a float operand. *)
Definition len {A : Type} (l : list A) : Q := inject_Z (Z.of_nat (List.length l)).

(** The body of the inner loop of [score_activity_combination]:
    [if self.check_clash(activities[i], activities[j]): clash_count += 1]. *)
Definition clash_step (activities : list Activity) (i : nat) (clash_count : Z)
  (j : nat) : option Z :=
  ai <- list_get activities i ;;
  aj <- list_get activities j ;;
  clash <- check_clash ai aj ;;
  Some (if clash then clash_count + 1 else clash_count).

(** The double loop of [score_activity_combination] that counts the
    clashing index pairs [i < j]. *)
Definition count_clashes (activities : list Activity) : option Z :=
  foldM
    (fun clash_count i =>
       foldM (clash_step activities i)
         (range (i + 1) (List.length activities)) clash_count)
    (range 0 (List.length activities)) 0.

(** The clash part of [score_activity_combination]. *)
Definition clash_score (activities : list Activity) : option Q :=
  let total_possible_clashes := (len activities * (len activities - 1) / 2)%Q in
  match Qcompare total_possible_clashes 0 with
  | Gt =>
      clash_count <- count_clashes activities ;;
      Some (1 - inject_Z clash_count / total_possible_clashes)%Q
  | _ => Some 1%Q
  end.

Definition AVOID_DAYS_WEIGHT : Q := 5 # 10.
Definition TIME_RESTRICT_WEIGHT : Q := 3 # 10.
Definition CLASH_WEIGHT : Q := 2 # 10.

Definition score_activity_combination (o : Optimization)
  (activities : list Activity) : option pyfloat :=
  match activities with
  | [] => Some NegInf
  | _ =>
      let avoid_days_score :=
        (sum (map (score_avoid_days o) activities) / len activities)%Q in
      time_scores <- mapM (score_time_restrictions o) activities ;;
      let time_score := (sum time_scores / len activities)%Q in
      clash_score <- clash_score activities ;;
      let total_score :=
        (AVOID_DAYS_WEIGHT * avoid_days_score +
         TIME_RESTRICT_WEIGHT * time_score +
         CLASH_WEIGHT * clash_score)%Q in
      Some (Fin total_score)
  end.

(** The two [nonlocal] variables of [optimize_timetable], and a ghost
    field: the arguments of the calls of [score_activity_combination]
    made so far, oldest first. *)
Record SearchState : Type := {
  best_combination : list Activity;
  best_score : pyfloat;
  scored : list (list Activity)
}.

(** The base case of [try_subject_combinations]: score the complete
    selection and keep it when it is strictly better. *)
Definition record_candidate (o : Optimization) (current_selection : list Activity)
  (st : SearchState) : option SearchState :=
  score <- score_activity_combination o current_selection ;;
  let log := scored st ++ [current_selection] in
  if pf_gtb score (best_score st) then
    Some {| best_combination := current_selection;
            best_score := score;
            scored := log |}
  else
    Some {| best_combination := best_combination st;
            best_score := best_score st;
            scored := log |}.

(** The loop [for activity in activities] of [try_group_combinations].
    [subject_selection] is one list object, changed in place by [append]
    and [pop]; its contents are threaded through the calls.  [deeper] is
    the recursive call [try_group_combinations(group_codes, group_idx + 1, _)]. *)
Fixpoint for_each_activity
  (deeper : list Activity -> SearchState -> option (SearchState * list Activity))
  (activities : list Activity) (subject_selection : list Activity)
  (st : SearchState) : option (SearchState * list Activity) :=
  match activities with
  | [] => Some (st, subject_selection)
  | activity :: activities' =>
      let subject_selection := subject_selection ++ [activity] in
      r <- deeper subject_selection st ;;
      subject_selection <- list_pop (snd r) ;;
      for_each_activity deeper activities' subject_selection (fst r)
  end.

(** [try_group_combinations]; the pair [(group_codes, group_idx)] is the
    list [group_codes[group_idx:]] of the codes still to assign.
    [next_subject] is the call
    [try_subject_combinations(subject_codes, current_idx + 1, _)]. *)
Fixpoint try_group_combinations
  (next_subject : list Activity -> SearchState -> option SearchState)
  (current_selection : list Activity) (activity_groups : dict (list Activity))
  (group_codes : list string) (subject_selection : list Activity)
  (st : SearchState) : option (SearchState * list Activity) :=
  match group_codes with
  | [] =>
      let combined_selection := current_selection ++ subject_selection in
      st' <- next_subject combined_selection st ;;
      Some (st', subject_selection)
  | group_code :: group_codes' =>
      let activities := defaultdict_get activity_groups group_code [] in
      for_each_activity
        (try_group_combinations next_subject current_selection activity_groups
           group_codes')
        activities subject_selection st
  end.

(** [try_subject_combinations]; the pair [(subject_codes, current_idx)] is
    the list [subject_codes[current_idx:]]. *)
Fixpoint try_subject_combinations (o : Optimization) (subject_activities : Index)
  (subject_codes : list string) (current_selection : list Activity)
  (st : SearchState) : option SearchState :=
  match subject_codes with
  | [] => record_candidate o current_selection st
  | subject_code :: subject_codes' =>
      let activity_groups := defaultdict_get subject_activities subject_code [] in
      let group_codes := dict_keys activity_groups in
      r <- try_group_combinations
             (try_subject_combinations o subject_activities subject_codes')
             current_selection activity_groups group_codes [] st ;;
      Some (fst r)
  end.

Definition initial_state : SearchState :=
  {| best_combination := []; best_score := NegInf; scored := [] |}.

(** The body of [optimize_timetable], returning the final state. *)
Definition run_search (data : Data) : option SearchState :=
  let subject_activities := get_subject_activities data in
  let subject_codes := dict_keys subject_activities in
  try_subject_combinations (optimization data) subject_activities
    subject_codes [] initial_state.

Definition optimize_timetable (data : Data) : option (list Activity) :=
  st <- run_search data ;; Some (best_combination st).

(** The f-string of [format_output]. *)
Definition format_activity (activity : Activity) : string :=
  subject_code activity ++ " | " ++
  activity_group_code activity ++ " | " ++
  "Activity " ++ activity_code activity ++ " | " ++
  day_of_week activity ++ " " ++ start_time activity ++
  " (" ++ duration activity ++ " mins)".

(** [sorted] on strings: the order is the byte-wise lexicographic one.
    Python's sort is stable; on strings every sorting algorithm gives the
    same list, and insertion sort stands for it. *)
Fixpoint insert_sorted (x : string) (l : list string) : list string :=
  match l with
  | [] => [x]
  | y :: l' => if String.leb x y then x :: l else y :: insert_sorted x l'
  end.

Definition sorted (l : list string) : list string :=
  fold_right insert_sorted [] l.

Definition format_output (selected_activities : list Activity) : list string :=
  let output :=
    fold_left (fun output activity => output ++ [format_activity activity])
      selected_activities [] in
  sorted output.

End TimetableOptimizer.

(** The module-level function [optimize_timetable(input_data)] of
    [optimal.py]. *)
Module Optimal.

Definition optimize_timetable (input_data : Data) : option (list string) :=
  selected_activities <- TimetableOptimizer.optimize_timetable input_data ;;
  Some (TimetableOptimizer.format_output selected_activities).

End Optimal.

(** ** Notions used by the statements *)

Import TimetableOptimizer.

(** An activity whose start time and duration parse: the validated
    catalog that the optimizer assumes. *)
Definition activity_ok (a : Activity) : bool :=
  match time_to_minutes (start_time a), PyStr.int (duration a) with
  | Some _, Some _ => true
  | _, _ => false
  end.

Definition catalog_ok (data : Data) : bool :=
  forallb (fun s => forallb activity_ok (dict_values (subj_activities s)))
    (subjects data).

(** Every activity carries the code of the subject it is listed under. *)
Definition subject_codes_consistent (data : Data) : bool :=
  forallb
    (fun s =>
       forallb (fun a => String.eqb (subject_code a) (subj_subject_code s))
         (dict_values (subj_activities s)))
    (subjects data).

(** The candidate lists of all groups of all subjects, in catalog order. *)
Definition all_groups (idx : Index) : list (list Activity) :=
  flat_map (fun e => dict_values (snd e)) idx.

(** The (subject code, group code) pairs of the catalog, in catalog order. *)
Definition group_keys (idx : Index) : list (string * string) :=
  flat_map (fun e => map (fun g => (fst e, fst g)) (snd e)) idx.

(** All ways to pick one activity from each list, the first list varying
    slowest. *)
Fixpoint choices (groups : list (list Activity)) : list (list Activity) :=
  match groups with
  | [] => [[]]
  | g :: groups' => flat_map (fun a => map (cons a) (choices groups')) g
  end.

(** The complete schedules of a catalog, in enumeration order. *)
Definition complete_schedules (data : Data) : list (list Activity) :=
  choices (all_groups (get_subject_activities data)).

(** The (subject, group) identity that an activity declares. *)
Definition identity (a : Activity) : string * string :=
  (subject_code a, activity_group_code a).

(** The half-open minute intervals [[s1, s1 + d1)] and [[s2, s2 + d2)]
    share a minute. *)
Definition intervals_overlap (s1 d1 s2 d2 : Z) : Prop :=
  exists t : Z, (s1 <= t < s1 + d1) /\ (s2 <= t < s2 + d2).

Definition clashes (a b : Activity) : bool :=
  match check_clash a b with
  | Some true => true
  | _ => false
  end.

(** The number of clashing unordered pairs of positions of a schedule. *)
Fixpoint clashing_pairs (l : list Activity) : Z :=
  match l with
  | [] => 0
  | a :: l' => Z.of_nat (List.length (filter (clashes a) l')) + clashing_pairs l'
  end.

(** The number of unordered pairs of positions of a schedule. *)
Fixpoint total_pairs (l : list Activity) : Z :=
  match l with
  | [] => 0
  | _ :: l' => Z.of_nat (List.length l') + total_pairs l'
  end.

Definition mean (l : list Q) : Q :=
  (fold_right Qplus 0 l / inject_Z (Z.of_nat (List.length l)))%Q.

(** The clash score in the words of the design. *)
Definition clash_score_spec (l : list Activity) : Q :=
  if (List.length l <? 2)%nat then 1%Q
  else (1 - inject_Z (clashing_pairs l) / inject_Z (total_pairs l))%Q.

(** The combined score in the words of the design. *)
Definition combined_score_spec (day_scores time_scores : list Q)
  (l : list Activity) : Q :=
  ((1 # 2) * mean day_scores + (3 # 10) * mean time_scores +
   (1 # 5) * clash_score_spec l)%Q.

(** The seven weekdays, and the spellings that denote them: the English
    name or an abbreviation of it of at least three letters, in any
    letter case ("Thu", "thurs", "THURSDAY"). *)
Inductive Weekday : Type := Mon | Tue | Wed | Thu | Fri | Sat | Sun.

Definition weekday_name (w : Weekday) : string :=
  match w with
  | Mon => "monday"
  | Tue => "tuesday"
  | Wed => "wednesday"
  | Thu => "thursday"
  | Fri => "friday"
  | Sat => "saturday"
  | Sun => "sunday"
  end.

Definition denotes (s : string) (w : Weekday) : Prop :=
  (3 <= String.length s)%nat /\
  String.prefix (PyStr.lower s) (weekday_name w) = true.

(** The score of a candidate when every score is defined. *)
Definition score_of (o : Optimization) (c : list Activity) : pyfloat :=
  match score_activity_combination o c with
  | Some s => s
  | None => NegInf
  end.

Definition mk_activity (s g c d t du : string) : Activity :=
  {| subject_code := s; activity_group_code := g; activity_code := c;
     day_of_week := d; start_time := t; duration := du |}.

(** The catalog printed in the module's [__main__] block, with its
    preferences. *)
Definition sample_input : Data :=
  {| subjects :=
       [ {| subj_subject_code := "INTS3003-S1C-ND-CC";
            subj_activities :=
              [ ("INTS3003-S1C-ND-CC|Lecture|01",
                 mk_activity "INTS3003-S1C-ND-CC" "Lecture" "01" "Thu" "09:00" "120");
                ("INTS3003-S1C-ND-CC|Tutorial|01",
                 mk_activity "INTS3003-S1C-ND-CC" "Tutorial" "01" "Fri" "12:00" "60") ] |};
         {| subj_subject_code := "BMET5995-S1C-ND-CC";
            subj_activities :=
              [ ("BMET5995-S1C-ND-CC|Lecture|01",
                 mk_activity "BMET5995-S1C-ND-CC" "Lecture" "01" "Mon" "14:00" "120");
                ("BMET5995-S1C-ND-CC|Practical|02",
                 mk_activity "BMET5995-S1C-ND-CC" "Practical" "02" "Wed" "09:30" "180");
                ("BMET5995-S1C-ND-CC|Practical|03",
                 mk_activity "BMET5995-S1C-ND-CC" "Practical" "03" "Wed" "13:30" "180") ] |} ];
     optimization :=
       {| timeRestrictions := {| tr_start := 6; tr_end := 18 |};
          avoidDays := ["tue"; "thu"] |} |}.

(** Prefixing every selection of [R] by one choice per list of [gs]. *)
Fixpoint extend (gs : list (list Activity)) (R : list (list Activity))
  : list (list Activity) :=
  match gs with
  | [] => R
  | g :: gs' => flat_map (fun a => map (cons a) (extend gs' R)) g
  end.

(** The candidate lists found by looking every key up again, as the
    search does. *)
Definition groups_by_lookup (activity_groups : dict (list Activity))
  (group_codes : list string) : list (list Activity) :=
  map (fun g => defaultdict_get activity_groups g []) group_codes.

Definition subjects_by_lookup (idx : Index) (subject_codes : list string)
  : list (list Activity) :=
  flat_map
    (fun code =>
       let activity_groups := defaultdict_get idx code [] in
       groups_by_lookup activity_groups (dict_keys activity_groups))
    subject_codes.

(** One step of the enumeration: the base case applied to a candidate. *)
Definition visit (o : Optimization) (st : SearchState) (c : list Activity)
  : option SearchState :=
  record_candidate o c st.

(** The index is a well-formed pair of nested dictionaries: keys are
    pairwise distinct at both levels and no group is empty. *)
Definition index_wf (idx : Index) : Prop :=
  NoDup (dict_keys idx) /\
  Forall
    (fun e => NoDup (dict_keys (snd e)) /\ Forall (fun g => snd g <> []) (snd e))
    idx.

(** [Q subject_key group_key activity] holds of every indexed activity. *)
Definition index_all (Q : string -> string -> Activity -> Prop) (idx : Index)
  : Prop :=
  Forall (fun e => Forall (fun g => Forall (Q (fst e) (fst g)) (snd g)) (snd e))
    idx.

(** What the search holds after visiting the candidates [l], starting
    from the best [b0] with score [s0]: either nothing beat [s0], or [b]
    is the first candidate of [l] whose score [s] is the greatest. *)
Definition first_best (o : Optimization) (l : list (list Activity))
  (b0 : list Activity) (s0 : pyfloat) (b : list Activity) (s : pyfloat) : Prop :=
  (b = b0 /\ s = s0 /\ Forall (fun c => pf_le (score_of o c) s0) l) \/
  (exists pre post,
      l = pre ++ b :: post /\ s = score_of o b /\ pf_lt s0 s /\
      Forall (fun c => pf_lt (score_of o c) s) pre /\
      Forall (fun c => pf_le (score_of o c) s) post).

(** Two lectures on Wednesday, 09:00-10:00 and 09:30-10:30. *)
Definition wed_0900 : Activity := mk_activity "S" "Lecture" "01" "Wed" "09:00" "60".
Definition wed_0930 : Activity := mk_activity "S" "Tutorial" "01" "Wed" "09:30" "60".

(** The three-letter key of a weekday. *)
Definition weekday_key (w : Weekday) : string :=
  match w with
  | Mon => "mon" | Tue => "tue" | Wed => "wed" | Thu => "thu"
  | Fri => "fri" | Sat => "sat" | Sun => "sun"
  end.

(** An early class against an evening window. *)
Definition evening_window : Optimization :=
  {| timeRestrictions := {| tr_start := 21; tr_end := 23 |}; avoidDays := [] |}.

Definition mon_0800 : Activity := mk_activity "S" "Lecture" "01" "Mon" "08:00" "60".

(** The order of [sorted]: byte-wise lexicographic. *)
Definition str_le (x y : string) : Prop := String.leb x y = true.

(** One subject with a lecture on Monday and two tutorials on Tuesday,
    Tuesday being a day to avoid. *)
Definition lecture_mon : Activity := mk_activity "S" "Lecture" "01" "Mon" "09:00" "60".
Definition tutorial_tue_1000 : Activity := mk_activity "S" "Tutorial" "01" "Tue" "10:00" "60".
Definition tutorial_tue_1130 : Activity := mk_activity "S" "Tutorial" "02" "Tue" "11:30" "30".

Definition tie_input : Data :=
  {| subjects :=
       [ {| subj_subject_code := "S";
            subj_activities :=
              [ ("S|Lecture|01", lecture_mon);
                ("S|Tutorial|01", tutorial_tue_1000);
                ("S|Tutorial|02", tutorial_tue_1130) ] |} ];
     optimization :=
       {| timeRestrictions := {| tr_start := 6; tr_end := 18 |};
          avoidDays := ["Tue"] |} |}.

(** An activity of no duration inside another one. *)
Definition wed_1000_empty : Activity := mk_activity "S" "Lecture" "02" "Wed" "10:00" "0".
Definition wed_0900_long : Activity := mk_activity "S" "Tutorial" "02" "Wed" "09:00" "120".

(** ** Notions used by the further properties *)

(** All activities of the catalog, in catalog order. *)
Definition catalog_activities (data : Data) : list Activity :=
  flat_map (fun s => dict_values (subj_activities s)) (subjects data).

(** The activities listed under the subject code [s] whose group code is
    [g], in catalog order. *)
Definition activities_of (data : Data) (s g : string) : list Activity :=
  filter (fun a => String.eqb (activity_group_code a) g)
    (flat_map (fun subj => dict_values (subj_activities subj))
       (filter (fun subj => String.eqb (subj_subject_code subj) s)
          (subjects data))).

(** [idx[s][g]], both levels read as [defaultdict]s. *)
Definition index_lookup (idx : Index) (s g : string) : list Activity :=
  defaultdict_get (defaultdict_get idx s []) g [].

(** The first occurrences of the elements of a list, in order. *)
Fixpoint first_occurrences (l : list string) : list string :=
  match l with
  | [] => []
  | x :: l' =>
      x :: filter (fun y => negb (String.eqb y x)) (first_occurrences l')
  end.

(** The subject code under which each activity of the catalog is listed,
    in catalog order (one entry per activity). *)
Definition listed_subject_codes (data : Data) : list string :=
  flat_map
    (fun subj =>
       map (fun _ => subj_subject_code subj) (dict_values (subj_activities subj)))
    (subjects data).

(** The group codes of the activities listed under the subject code [s],
    in catalog order (one entry per activity). *)
Definition listed_group_codes (data : Data) (s : string) : list string :=
  map activity_group_code
    (flat_map (fun subj => dict_values (subj_activities subj))
       (filter (fun subj => String.eqb (subj_subject_code subj) s)
          (subjects data))).

(** The keys of a dictionary after a write to the key [k]. *)
Definition note_key (seen : list string) (k : string) : list string :=
  if str_in k seen then seen else seen ++ [k].

(** [c in s] *)
Fixpoint has_char (c : ascii) (s : string) : bool :=
  match s with
  | EmptyString => false
  | String c' s' => Ascii.eqb c' c || has_char c s'
  end.

(** The two decimal digits of a number below one hundred. *)
Definition two_digits (n : Z) : string :=
  String (ascii_of_N (Z.to_N (48 + n / 10)))
    (String (ascii_of_N (Z.to_N (48 + n mod 10))) EmptyString).

(** The text ["HH:MM"] of a time of day. *)
Definition clock_text (h m : Z) : string :=
  two_digits h ++ ":" ++ two_digits m.

(** ** The groups of a catalog, read off the catalog itself *)

(** The subject codes of the catalog that list an activity, each once, in
    the order of their first activity. *)
Definition catalog_subject_codes (data : Data) : list string :=
  first_occurrences (listed_subject_codes data).

(** The group codes of the activities listed under the subject code [s],
    each once, in the order of their first occurrence. *)
Definition catalog_group_codes (data : Data) (s : string) : list string :=
  first_occurrences (listed_group_codes data s).

(** The (subject code, group code) pairs of the catalog, in catalog order. *)
Definition catalog_group_keys (data : Data) : list (string * string) :=
  flat_map (fun s => map (fun g => (s, g)) (catalog_group_codes data s))
    (catalog_subject_codes data).

(** The candidate activities of every group of the catalog. *)
Definition catalog_groups (data : Data) : list (list Activity) :=
  map (fun key => activities_of data (fst key) (snd key))
    (catalog_group_keys data).

(** The complete schedules of the catalog: one candidate per group, the
    first group varying slowest. *)
Definition catalog_schedules (data : Data) : list (list Activity) :=
  choices (catalog_groups data).

(** The product, over the subjects and over the groups of each subject, of
    the number of candidates of the group. *)
Definition catalog_product (data : Data) : nat :=
  fold_right Nat.mul 1%nat
    (map
       (fun s =>
          fold_right Nat.mul 1%nat
            (map (fun g => List.length (activities_of data s g))
               (catalog_group_codes data s)))
       (catalog_subject_codes data)).

(** The number of groups of the catalog, summed over its subjects. *)
Definition catalog_group_count (data : Data) : nat :=
  list_sum
    (map (fun s => List.length (catalog_group_codes data s))
       (catalog_subject_codes data)).

(** [a] is a candidate of the group [key] of the catalog. *)
Definition candidate_of (data : Data) (key : string * string) (a : Activity)
  : Prop :=
  In a (activities_of data (fst key) (snd key)).

(** ** The search over any floats

    The search reads a score and compares it with the best one so far;
    it does no arithmetic of its own.  Here the scorer
    ([self.score_activity_combination]), the comparison ([>]) and the
    initial best score ([float('-inf')]) are parameters, so that what is
    proved of the search holds however the scores are computed and
    rounded.  For the scorer and comparison of this file the functions
    below are those of [TimetableOptimizer]. *)

Module AnyFloat.

Section Search.

Variable float : Type.
Variable score_activity_combination : list Activity -> option float.
Variable gt : float -> float -> bool.
Variable neg_inf : float.

(** [best_combination], [best_score] and the ghost log of scored
    schedules. *)
Record SearchState : Type := {
  best_combination : list Activity;
  best_score : float;
  scored : list (list Activity)
}.

(** The base case of [try_subject_combinations]. *)
Definition record_candidate (current_selection : list Activity)
  (st : SearchState) : option SearchState :=
  score <- score_activity_combination current_selection ;;
  let log := scored st ++ [current_selection] in
  if gt score (best_score st) then
    Some {| best_combination := current_selection;
            best_score := score;
            scored := log |}
  else
    Some {| best_combination := best_combination st;
            best_score := best_score st;
            scored := log |}.

(** The loop [for activity in activities] of [try_group_combinations]. *)
Fixpoint for_each_activity
  (deeper : list Activity -> SearchState -> option (SearchState * list Activity))
  (activities : list Activity) (subject_selection : list Activity)
  (st : SearchState) : option (SearchState * list Activity) :=
  match activities with
  | [] => Some (st, subject_selection)
  | activity :: activities' =>
      let subject_selection := subject_selection ++ [activity] in
      r <- deeper subject_selection st ;;
      subject_selection <- list_pop (snd r) ;;
      for_each_activity deeper activities' subject_selection (fst r)
  end.

Fixpoint try_group_combinations
  (next_subject : list Activity -> SearchState -> option SearchState)
  (current_selection : list Activity) (activity_groups : dict (list Activity))
  (group_codes : list string) (subject_selection : list Activity)
  (st : SearchState) : option (SearchState * list Activity) :=
  match group_codes with
  | [] =>
      let combined_selection := current_selection ++ subject_selection in
      st' <- next_subject combined_selection st ;;
      Some (st', subject_selection)
  | group_code :: group_codes' =>
      let activities := defaultdict_get activity_groups group_code [] in
      for_each_activity
        (try_group_combinations next_subject current_selection activity_groups
           group_codes')
        activities subject_selection st
  end.

Fixpoint try_subject_combinations (subject_activities : Index)
  (subject_codes : list string) (current_selection : list Activity)
  (st : SearchState) : option SearchState :=
  match subject_codes with
  | [] => record_candidate current_selection st
  | subject_code :: subject_codes' =>
      let activity_groups := defaultdict_get subject_activities subject_code [] in
      let group_codes := dict_keys activity_groups in
      r <- try_group_combinations
             (try_subject_combinations subject_activities subject_codes')
             current_selection activity_groups group_codes [] st ;;
      Some (fst r)
  end.

Definition initial_state : SearchState :=
  {| best_combination := []; best_score := neg_inf; scored := [] |}.

Definition run_search (data : Data) : option SearchState :=
  let subject_activities := get_subject_activities data in
  let subject_codes := dict_keys subject_activities in
  try_subject_combinations subject_activities subject_codes [] initial_state.

Definition optimize_timetable (data : Data) : option (list Activity) :=
  st <- run_search data ;; Some (best_combination st).

(** One step of the enumeration. *)
Definition visit (st : SearchState) (c : list Activity) : option SearchState :=
  record_candidate c st.

End Search.

End AnyFloat.

(** The state of [TimetableOptimizer]'s search as a state of the search
    over any floats. *)
Definition as_any_float (st : SearchState) : AnyFloat.SearchState pyfloat :=
  {| AnyFloat.best_combination := best_combination st;
     AnyFloat.best_score := best_score st;
     AnyFloat.scored := scored st |}.

Arguments AnyFloat.best_combination {float} _.
Arguments AnyFloat.best_score {float} _.
Arguments AnyFloat.scored {float} _.

(** ** Case-insensitive comparison of ASCII text, letter by letter *)

Definition is_ascii_char (c : ascii) : bool := (N_of_ascii c <? 128)%N.

(** Text made of ASCII characters only; on such text a byte is a
    character and [str.lower] changes the letters A to Z only. *)
Fixpoint is_ascii (s : string) : bool :=
  match s with
  | EmptyString => true
  | String c s' => is_ascii_char c && is_ascii s'
  end.

Definition is_upper_char (c : ascii) : bool :=
  ((65 <=? N_of_ascii c) && (N_of_ascii c <=? 90))%N.

(** The same character, or an upper-case letter and its lower-case
    form. *)
Definition same_letter_ci (a b : ascii) : bool :=
  Ascii.eqb a b
  || (is_upper_char a && (N_of_ascii b =? N_of_ascii a + 32)%N)
  || (is_upper_char b && (N_of_ascii a =? N_of_ascii b + 32)%N).

(** The first [n] characters of [s] and of [t] are the same up to letter
    case; a text shorter than [n] must end where the other does. *)
Fixpoint same_prefix_ci (n : nat) (s t : string) : bool :=
  match n with
  | O => true
  | S n' =>
      match s, t with
      | EmptyString, EmptyString => true
      | String a s', String b t' => same_letter_ci a b && same_prefix_ci n' s' t'
      | _, _ => false
      end
  end.

(** All 256 characters. *)
Definition all_ascii : list ascii := map ascii_of_nat (seq 0 256).

(** The number of occurrences of [c] in [s]. *)
Fixpoint count_char (c : ascii) (s : string) : nat :=
  match s with
  | EmptyString => O
  | String c' s' => (if Ascii.eqb c' c then 1 else 0) + count_char c s'
  end.

(** The sample catalog with one start time written with a dot. *)
Definition dotted_time_input : Data :=
  {| subjects :=
       [ {| subj_subject_code := "S";
            subj_activities :=
              [ ("S|Lecture|01", lecture_mon);
                ("S|Tutorial|01", tutorial_tue_1000);
                ("S|Tutorial|02",
                 mk_activity "S" "Tutorial" "02" "Tue" "11.30" "30") ] |} ];
     optimization := optimization tie_input |}.

(** ** Scores as IEEE 754 binary64 numbers *)

From Stdlib Require SpecFloat.

(** Python's [float] is the binary64 format; its operations round to the
    nearest representable number, ties to even, and overflow to an
    infinity.  The scoring functions are written out once more over this
    format, with the integer parts ([time_to_minutes], the deviations, the
    clash count) shared with [TimetableOptimizer]. *)

Module Binary64.

Definition float : Type := SpecFloat.spec_float.

Definition prec : Z := 53.
Definition emax : Z := 1024.

Definition add : float -> float -> float := SpecFloat.SFadd prec emax.
Definition sub : float -> float -> float := SpecFloat.SFsub prec emax.
Definition mul : float -> float -> float := SpecFloat.SFmul prec emax.

(** [a > b]; [False] when an operand is NaN. *)
Definition gt (a b : float) : bool := SpecFloat.SFltb b a.

(** [float('-inf')] *)
Definition neg_inf : float := SpecFloat.S754_infinity true.

Definition is_nan (x : float) : bool :=
  match x with
  | SpecFloat.S754_nan => true
  | _ => false
  end.

Definition is_zero (x : float) : bool :=
  match x with
  | SpecFloat.S754_zero _ => true
  | _ => false
  end.

Definition is_infinity (x : float) : bool :=
  match x with
  | SpecFloat.S754_infinity _ => true
  | _ => false
  end.

(** The integer [z] as a number [m * 2^0], not yet rounded. *)
Definition exact (z : Z) : float :=
  match z with
  | Z0 => SpecFloat.S754_zero false
  | Zpos m => SpecFloat.S754_finite false m 0
  | Zneg m => SpecFloat.S754_finite true m 0
  end.

(** [float(z)] of an int, also implicit where an int meets a float;
    [OverflowError] when [z] is beyond the range of the format. *)
Definition of_int (z : Z) : option float :=
  let x := SpecFloat.binary_normalize prec emax z 0 false in
  if is_infinity x then None else Some x.

(** [a / b] on two ints: the quotient rounded once; [ZeroDivisionError]
    on [b = 0], [OverflowError] beyond the range of the format. *)
Definition int_truediv (a b : Z) : option float :=
  if b =? 0 then None
  else
    let x := SpecFloat.SFdiv prec emax (exact a) (exact b) in
    if is_infinity x then None else Some x.

(** [x / y] on two floats; [ZeroDivisionError] on a zero divisor. *)
Definition truediv (x y : float) : option float :=
  if is_zero y then None else Some (SpecFloat.SFdiv prec emax x y).

(** The literals [0.0], [1.0], [0.5], [0.3] and [0.2]: the numbers of the
    format nearest to the decimal fractions. *)
Definition lit_0_0 : float := SpecFloat.S754_zero false.
Definition lit_1_0 : float := SpecFloat.binary_normalize prec emax 1 0 false.
Definition lit_0_5 : float := SpecFloat.SFdiv prec emax (exact 5) (exact 10).
Definition lit_0_3 : float := SpecFloat.SFdiv prec emax (exact 3) (exact 10).
Definition lit_0_2 : float := SpecFloat.SFdiv prec emax (exact 2) (exact 10).

(** [sum(...)] of floats: from the int [0], adding from the left, each
    addition rounded.  (From CPython 3.12 on, [sum] carries a correction
    term; for one or two terms the result is the same.) *)
Definition sum (l : list float) : float := fold_left add l lit_0_0.

Definition score_avoid_days (o : Optimization) (activity : Activity) : float :=
  let avoid_days := map day_key (avoidDays o) in
  let activity_day := day_key (day_of_week activity) in
  if str_in activity_day avoid_days then lit_0_0 else lit_1_0.

Definition score_time_restrictions (o : Optimization) (activity : Activity)
  : option float :=
  start_time <- time_to_minutes (start_time activity) ;;
  duration <- PyStr.int (duration activity) ;;
  let end_time := start_time + duration in
  let allowed_start := tr_start (timeRestrictions o) * 60 in
  let allowed_end := tr_end (timeRestrictions o) * 60 in
  let start_deviation :=
    Z.max 0 (allowed_start - start_time) + Z.max 0 (start_time - allowed_end) in
  let end_deviation :=
    Z.max 0 (allowed_start - end_time) + Z.max 0 (end_time - allowed_end) in
  let total_deviation := start_deviation + end_deviation in
  let max_possible_deviation := 24 * 60 in
  ratio <- int_truediv total_deviation max_possible_deviation ;;
  Some (sub lit_1_0 ratio).

(** The clash part of [score_activity_combination]. *)
Definition clash_score (activities : list Activity) : option float :=
  let n := Z.of_nat (List.length activities) in
  total_possible_clashes <- int_truediv (n * (n - 1)) 2 ;;
  if gt total_possible_clashes lit_0_0 then
    clash_count <- count_clashes activities ;;
    clash_count <- of_int clash_count ;;
    ratio <- truediv clash_count total_possible_clashes ;;
    Some (sub lit_1_0 ratio)
  else Some lit_1_0.

Definition AVOID_DAYS_WEIGHT : float := lit_0_5.
Definition TIME_RESTRICT_WEIGHT : float := lit_0_3.
Definition CLASH_WEIGHT : float := lit_0_2.

Definition score_activity_combination (o : Optimization)
  (activities : list Activity) : option float :=
  match activities with
  | [] => Some neg_inf
  | _ =>
      len <- of_int (Z.of_nat (List.length activities)) ;;
      avoid_days_score <-
        truediv (sum (map (score_avoid_days o) activities)) len ;;
      time_scores <- mapM (score_time_restrictions o) activities ;;
      time_score <- truediv (sum time_scores) len ;;
      clash_score <- clash_score activities ;;
      let total_score :=
        add (add (mul AVOID_DAYS_WEIGHT avoid_days_score)
                 (mul TIME_RESTRICT_WEIGHT time_score))
            (mul CLASH_WEIGHT clash_score) in
      Some total_score
  end.

(** [optimize_timetable] with binary64 scores. *)
Definition optimize_timetable (data : Data) : option (list Activity) :=
  AnyFloat.optimize_timetable float
    (score_activity_combination (optimization data)) gt neg_inf data.

(** The order of the numbers of the format, NaN apart, as an order on
    triples: the class (negative infinity, negative, zero, positive,
    positive infinity), then the exponent, then the mantissa, the last
    two negated for negative numbers. *)
Definition rank (x : float) : Z * Z * Z :=
  match x with
  | SpecFloat.S754_nan => (0, 0, 0)
  | SpecFloat.S754_zero _ => (0, 0, 0)
  | SpecFloat.S754_infinity true => (-2, 0, 0)
  | SpecFloat.S754_infinity false => (2, 0, 0)
  | SpecFloat.S754_finite true m e => (-1, - e, Zneg m)
  | SpecFloat.S754_finite false m e => (1, e, Zpos m)
  end.

Definition lt3 (a b : Z * Z * Z) : Prop :=
  let '(a1, a2, a3) := a in
  let '(b1, b2, b3) := b in
  a1 < b1 \/ (a1 = b1 /\ (a2 < b2 \/ (a2 = b2 /\ a3 < b3))).

End Binary64.

Definition lecture_mon_1900 : Activity := mk_activity "S" "Lecture" "01" "Mon" "19:00" "120".
Definition tutorial_fri_0900 : Activity := mk_activity "S" "Tutorial" "01" "Fri" "09:00" "60".
Definition tutorial_mon_2000 : Activity := mk_activity "S" "Tutorial" "02" "Mon" "20:00" "120".

(** A catalog with two complete schedules of the same exact score,
    57/80, whose binary64 scores differ in the last place. *)
Definition close_scores_input : Data :=
  {| subjects :=
       [ {| subj_subject_code := "S";
            subj_activities :=
              [ ("S|Lecture|01", lecture_mon_1900);
                ("S|Tutorial|01", tutorial_fri_0900);
                ("S|Tutorial|02", tutorial_mon_2000) ] |} ];
     optimization :=
       {| timeRestrictions := {| tr_start := 9; tr_end := 17 |};
          avoidDays := ["Fri"] |} |}.

(** ** The groups of a catalog, subject by subject *)

(** The candidate activities of the group [g] of one subject. *)
Definition subject_candidates (subj : Subject) (g : string) : list Activity :=
  filter (fun a => String.eqb (activity_group_code a) g)
    (dict_values (subj_activities subj)).

(** The group codes of one subject, each once, in the order of their
    first activity. *)
Definition subject_group_codes (subj : Subject) : list string :=
  first_occurrences
    (map activity_group_code (dict_values (subj_activities subj))).

(** The groups of one subject. *)
Definition subject_groups (subj : Subject) : list (list Activity) :=
  map (subject_candidates subj) (subject_group_codes subj).

(** The product, over the groups of one subject, of the number of
    candidates of the group. *)
Definition subject_product (subj : Subject) : nat :=
  fold_right Nat.mul 1%nat
    (map (fun g => List.length (subject_candidates subj g))
       (subject_group_codes subj)).

(** The product over all subjects and all groups of each subject of the
    group's number of candidates. *)
Definition subjects_product (data : Data) : nat :=
  fold_right Nat.mul 1%nat (map subject_product (subjects data)).

(** The total number of groups across all subjects. *)
Definition subjects_group_count (data : Data) : nat :=
  list_sum (map (fun subj => List.length (subject_group_codes subj)) (subjects data)).

(** The (subject code, group code) pairs, subject by subject. *)
Definition subjects_group_keys (data : Data) : list (string * string) :=
  flat_map
    (fun subj =>
       map (fun g => (subj_subject_code subj, g)) (subject_group_codes subj))
    (subjects data).

(** No two subjects of the catalog have the same code. *)
Definition distinct_subject_codes (data : Data) : Prop :=
  NoDup (map subj_subject_code (subjects data)).
(** * Properties *)

(** ** The exception monad and loops *)

Lemma bind_some_r {A : Type} (m : option A) : (x <- m ;; Some x) = m.
Proof. now destruct m. Qed.

Lemma bind_assoc {A B C : Type} (m : option A) (f : A -> option B)
  (g : B -> option C) :
  (y <- (x <- m ;; f x) ;; g y) = (x <- m ;; y <- f x ;; g y).
Proof. now destruct m. Qed.

Lemma foldM_app {A S : Type} (body : S -> A -> option S) (l1 l2 : list A) (s : S) :
  foldM body (l1 ++ l2) s = (s' <- foldM body l1 s ;; foldM body l2 s').
Proof.
  revert s; induction l1 as [|x l1 IH]; intros s; simpl.
  - reflexivity.
  - destruct (body s x) as [s1|]; simpl; [apply IH | reflexivity].
Qed.

Lemma list_pop_snoc {A : Type} (l : list A) (x : A) : list_pop (l ++ [x]) = Some l.
Proof.
  unfold list_pop. rewrite removelast_last.
  destruct l; reflexivity.
Qed.

(** ** The search visits the lexicographic product *)

Lemma extend_choices (gs rest : list (list Activity)) :
  extend gs (choices rest) = choices (gs ++ rest).
Proof.
  induction gs as [|g gs IH]; simpl; [reflexivity|].
  now rewrite IH.
Qed.

Section Search.

Variable o : Optimization.

Lemma for_each_activity_visits
  (deeper : list Activity -> SearchState -> option (SearchState * list Activity))
  (F : list Activity -> list (list Activity)) :
  (forall sel st, deeper sel st = (s <- foldM (visit o) (F sel) st ;; Some (s, sel))) ->
  forall activities sel st,
    for_each_activity deeper activities sel st =
    (s <- foldM (visit o) (flat_map (fun a => F (sel ++ [a])) activities) st ;;
     Some (s, sel)).
Proof.
  intros Hdeep activities.
  induction activities as [|a activities IH]; intros sel st; simpl.
  - reflexivity.
  - rewrite Hdeep, foldM_app.
    destruct (foldM (visit o) (F (sel ++ [a])) st) as [s1|]; simpl; [|reflexivity].
    rewrite list_pop_snoc. simpl. apply IH.
Qed.

Lemma map_prefix_flat_map (cur sel : list Activity) (g : list Activity)
  (R : list (list Activity)) :
  flat_map (fun a => map (fun c => cur ++ (sel ++ [a]) ++ c) R) g =
  map (fun c => cur ++ sel ++ c) (flat_map (fun a => map (cons a) R) g).
Proof.
  induction g as [|a g IH]; simpl; [reflexivity|].
  rewrite map_app, map_map, IH. f_equal.
  apply map_ext. intros c. now rewrite <- app_assoc.
Qed.

Lemma try_group_combinations_visits
  (next_subject : list Activity -> SearchState -> option SearchState)
  (R : list (list Activity)) (cur : list Activity)
  (activity_groups : dict (list Activity)) :
  (forall c st, next_subject c st = foldM (visit o) (map (app c) R) st) ->
  forall group_codes sel st,
    try_group_combinations next_subject cur activity_groups group_codes sel st =
    (s <- foldM (visit o)
            (map (fun c => cur ++ sel ++ c)
               (extend (groups_by_lookup activity_groups group_codes) R)) st ;;
     Some (s, sel)).
Proof.
  intros Hnext group_codes.
  induction group_codes as [|g group_codes IH]; intros sel st; simpl.
  - rewrite Hnext. f_equal. f_equal.
    apply map_ext. intros c. now rewrite app_assoc.
  - rewrite (for_each_activity_visits _
               (fun sel' =>
                  map (fun c => cur ++ sel' ++ c)
                    (extend (groups_by_lookup activity_groups group_codes) R))).
    + now rewrite map_prefix_flat_map.
    + intros sel' st'. apply IH.
Qed.

Lemma try_subject_combinations_visits (idx : Index) :
  forall subject_codes cur st,
    try_subject_combinations o idx subject_codes cur st =
    foldM (visit o) (map (app cur) (choices (subjects_by_lookup idx subject_codes))) st.
Proof.
  intros subject_codes.
  induction subject_codes as [|code subject_codes IH]; intros cur st.
  - simpl. rewrite app_nil_r. unfold visit. now rewrite bind_some_r.
  - cbn [try_subject_combinations subjects_by_lookup flat_map].
    rewrite (try_group_combinations_visits _
               (choices (subjects_by_lookup idx subject_codes))).
    + rewrite bind_assoc. cbn [bind fst]. rewrite bind_some_r.
      fold (subjects_by_lookup idx subject_codes).
      now rewrite extend_choices.
    + intros c st'. apply IH.
Qed.

End Search.

(** ** Dictionaries *)

Lemma in_keys_update {V : Type} (d : dict V) (k : string) (def : V) (f : V -> V)
  (x : string) :
  In x (dict_keys (defaultdict_update d k def f)) <-> In x (dict_keys d) \/ x = k.
Proof.
  induction d as [|[k' v] d IH]; simpl.
  - intuition.
  - destruct (String.eqb_spec k' k) as [->|Hne]; simpl.
    + intuition.
    + rewrite IH. intuition.
Qed.

Lemma NoDup_keys_update {V : Type} (d : dict V) (k : string) (def : V)
  (f : V -> V) :
  NoDup (dict_keys d) -> NoDup (dict_keys (defaultdict_update d k def f)).
Proof.
  induction d as [|[k' v] d IH]; simpl; intros Hnd.
  - constructor; [intros [] | constructor].
  - inversion Hnd as [|? ? Hnotin Hnd']; subst.
    destruct (String.eqb_spec k' k) as [->|Hne]; simpl.
    + now constructor.
    + constructor; [|now apply IH].
      rewrite in_keys_update. intros [Hin | Heq]; [now apply Hnotin | now apply Hne].
Qed.

Lemma Forall_update {V : Type} (R : string * V -> Prop) (d : dict V)
  (k : string) (def : V) (f : V -> V) :
  Forall R d ->
  (forall v, R (k, v) -> R (k, f v)) ->
  R (k, f def) ->
  Forall R (defaultdict_update d k def f).
Proof.
  intros Hd Hf Hdef.
  induction Hd as [|[k' v] d Hkv Hd IH]; simpl.
  - now constructor.
  - destruct (String.eqb_spec k' k) as [->|Hne]; constructor; auto.
Qed.

Lemma defaultdict_get_in {V : Type} (d : dict V) (k : string) (v def : V) :
  NoDup (dict_keys d) -> In (k, v) d -> defaultdict_get d k def = v.
Proof.
  induction d as [|[k' v'] d IH]; simpl; intros Hnd Hin; [contradiction|].
  inversion Hnd as [|? ? Hnotin Hnd']; subst.
  destruct Hin as [Heq | Hin].
  - inversion Heq; subst. now rewrite String.eqb_refl.
  - destruct (String.eqb_spec k' k) as [->|Hne]; [|now apply IH].
    exfalso. apply Hnotin. change k with (fst (k, v)). now apply in_map.
Qed.

Lemma defaultdict_get_cases {V : Type} (d : dict V) (k : string) (def : V) :
  In (k, defaultdict_get d k def) d \/ defaultdict_get d k def = def.
Proof.
  induction d as [|[k' v'] d IH]; simpl; [now right|].
  destruct (String.eqb_spec k' k) as [->|Hne]; [now left; left|].
  destruct IH as [IH | IH]; [left; now right | now right].
Qed.

Lemma lookup_keys {V : Type} (d : dict V) (def : V) :
  NoDup (dict_keys d) ->
  map (fun k => defaultdict_get d k def) (dict_keys d) = dict_values d.
Proof.
  intros Hnd. unfold dict_keys, dict_values. rewrite map_map.
  apply map_ext_in. intros [k v] Hin. simpl.
  now apply defaultdict_get_in.
Qed.

Lemma fold_left_invariant {A B : Type} (P : A -> Prop) (f : A -> B -> A)
  (l : list B) (init : A) :
  P init ->
  (forall acc x, In x l -> P acc -> P (f acc x)) ->
  P (fold_left f l init).
Proof.
  revert init. induction l as [|x l IH]; intros init Hinit Hstep; simpl.
  - exact Hinit.
  - apply IH.
    + apply Hstep; [now left | exact Hinit].
    + intros acc y Hy. apply Hstep. now right.
Qed.

(** ** The index built by [get_subject_activities] *)

Lemma snoc_not_nil {A : Type} (l : list A) (x : A) : l ++ [x] <> [].
Proof. destruct l; discriminate. Qed.

Lemma index_append_wf (idx : Index) (s g : string) (a : Activity) :
  index_wf idx -> index_wf (index_append idx s g a).
Proof.
  intros [Hkeys Hgroups]. unfold index_append. split.
  - now apply NoDup_keys_update.
  - apply Forall_update; simpl.
    + exact Hgroups.
    + intros groups [Hnd Hne]. split.
      * now apply NoDup_keys_update.
      * apply Forall_update; simpl.
        -- exact Hne.
        -- intros l _. apply snoc_not_nil.
        -- discriminate.
    + split.
      * repeat constructor. intros [].
      * repeat constructor. simpl. discriminate.
Qed.

Lemma index_append_all (Q : string -> string -> Activity -> Prop) (idx : Index)
  (s g : string) (a : Activity) :
  index_all Q idx -> Q s g a -> index_all Q (index_append idx s g a).
Proof.
  intros Hall Hq. unfold index_all, index_append.
  apply Forall_update; simpl.
  - exact Hall.
  - intros groups Hgroups. apply Forall_update; simpl.
    + exact Hgroups.
    + intros l Hl. apply Forall_app. split; [exact Hl | now repeat constructor].
    + now repeat constructor.
  - repeat constructor. simpl. exact Hq.
Qed.

Lemma get_subject_activities_wf (data : Data) :
  index_wf (get_subject_activities data).
Proof.
  unfold get_subject_activities.
  apply fold_left_invariant.
  - split; constructor.
  - intros sa subject _ Hsa. apply fold_left_invariant; [exact Hsa|].
    intros sa' a _ Hsa'. now apply index_append_wf.
Qed.

Lemma get_subject_activities_all (Q : string -> string -> Activity -> Prop)
  (data : Data) :
  (forall s a,
      In s (subjects data) -> In a (dict_values (subj_activities s)) ->
      Q (subj_subject_code s) (activity_group_code a) a) ->
  index_all Q (get_subject_activities data).
Proof.
  intros Hq. unfold get_subject_activities.
  apply fold_left_invariant.
  - constructor.
  - intros sa subject Hs Hsa. apply fold_left_invariant; [exact Hsa|].
    intros sa' a Ha Hsa'. apply index_append_all; [exact Hsa' | now apply Hq].
Qed.

Lemma index_all_lookup (Q : string -> string -> Activity -> Prop) (idx : Index)
  (s g : string) (a : Activity) :
  index_all Q idx ->
  In a (defaultdict_get (defaultdict_get idx s []) g []) -> Q s g a.
Proof.
  intros Hall Hin.
  destruct (defaultdict_get_cases idx s []) as [Hs | Hs];
    [|rewrite Hs in Hin; contradiction].
  destruct (defaultdict_get_cases (defaultdict_get idx s []) g []) as [Hg | Hg];
    [|rewrite Hg in Hin; contradiction].
  unfold index_all in Hall. rewrite Forall_forall in Hall.
  specialize (Hall _ Hs). simpl in Hall. rewrite Forall_forall in Hall.
  specialize (Hall _ Hg). simpl in Hall. rewrite Forall_forall in Hall.
  now apply Hall.
Qed.

Lemma subjects_by_lookup_all (idx : Index) :
  index_wf idx -> subjects_by_lookup idx (dict_keys idx) = all_groups idx.
Proof.
  intros [Hkeys Hgroups]. unfold subjects_by_lookup, all_groups, dict_keys.
  rewrite !flat_map_concat_map, map_map. f_equal.
  apply map_ext_in. intros [k groups] Hin. simpl.
  rewrite (defaultdict_get_in idx k groups []) by assumption.
  rewrite Forall_forall in Hgroups.
  apply lookup_keys. now apply (Hgroups _ Hin).
Qed.

Lemma all_groups_by_keys (idx : Index) :
  index_wf idx ->
  all_groups idx =
  map (fun key => defaultdict_get (defaultdict_get idx (fst key) []) (snd key) [])
    (group_keys idx).
Proof.
  intros [Hkeys Hgroups]. unfold all_groups, group_keys.
  rewrite !flat_map_concat_map, concat_map, map_map. f_equal.
  apply map_ext_in. intros [k groups] Hin. simpl.
  rewrite map_map. simpl.
  rewrite (defaultdict_get_in idx k groups []) by assumption.
  rewrite Forall_forall in Hgroups.
  unfold dict_values. apply map_ext_in. intros [g l] Hg. simpl.
  symmetry. apply defaultdict_get_in; [|exact Hg].
  now apply (Hgroups _ Hin).
Qed.

Lemma group_keys_NoDup (idx : Index) : index_wf idx -> NoDup (group_keys idx).
Proof.
  intros [Hkeys Hgroups]. unfold group_keys.
  induction idx as [|[k groups] idx IH]; simpl; [constructor|].
  inversion Hkeys as [|? ? Hnotin Hkeys']; subst.
  inversion Hgroups as [|? ? [Hnd _] Hgroups']; subst.
  apply NoDup_app.
  - apply Finite.Injective_map_NoDup_in; [|exact (NoDup_map_inv _ _ Hnd)].
    intros [g1 l1] [g2 l2] H1 H2 Heq. simpl in Heq. inversion Heq; subst.
    f_equal.
    rewrite <- (defaultdict_get_in groups g2 l1 [] Hnd H1).
    now rewrite <- (defaultdict_get_in groups g2 l2 [] Hnd H2).
  - now apply IH.
  - intros [s g] Hin1 Hin2.
    apply in_map_iff in Hin1 as [g' [Heq _]]. simpl in Heq.
    injection Heq as Hs _.
    apply in_flat_map in Hin2 as [e [He Hin2]].
    apply in_map_iff in Hin2 as [g'' [Heq' _]].
    injection Heq' as Hs' _.
    apply Hnotin. rewrite Hs, <- Hs'. now apply in_map.
Qed.

(** ** The lexicographic product *)

Lemma in_choices (gs : list (list Activity)) :
  forall c, In c (choices gs) <-> Forall2 (fun g a => In a g) gs c.
Proof.
  induction gs as [|g gs IH]; intros c; simpl.
  - split.
    + intros [<- | []]. constructor.
    + intros H. inversion H. now left.
  - rewrite in_flat_map. split.
    + intros [a [Ha Hc]]. apply in_map_iff in Hc as [c' [<- Hc']].
      constructor; [exact Ha | now apply IH].
    + intros H. inversion H as [|? a ? c' Ha Hc']; subst.
      exists a. split; [exact Ha|]. apply in_map. now apply IH.
Qed.

Lemma length_choices (gs : list (list Activity)) :
  List.length (choices gs) = fold_right Nat.mul 1%nat (map (@List.length _) gs).
Proof.
  induction gs as [|g gs IH]; simpl; [reflexivity|].
  rewrite <- IH. clear IH.
  induction g as [|a g IHg]; simpl; [reflexivity|].
  now rewrite length_app, length_map, IHg.
Qed.

Lemma product_app (l1 l2 : list nat) :
  fold_right Nat.mul 1%nat (l1 ++ l2) =
  (fold_right Nat.mul 1 l1 * fold_right Nat.mul 1 l2)%nat.
Proof.
  induction l1 as [|x l1 IH]; simpl; [lia|]. rewrite IH. lia.
Qed.

Lemma choices_not_nil (gs : list (list Activity)) :
  Forall (fun g => g <> []) gs -> choices gs <> [].
Proof.
  induction 1 as [|g gs Hg _ IH]; simpl; [discriminate|].
  destruct g as [|a g]; [contradiction|]. simpl.
  destruct (choices gs); [contradiction|]. discriminate.
Qed.

Lemma all_groups_not_nil (idx : Index) :
  index_wf idx -> Forall (fun g => g <> []) (all_groups idx).
Proof.
  intros [_ Hgroups]. unfold all_groups.
  apply Forall_flat_map. rewrite Forall_forall in *.
  intros e He. destruct (Hgroups e He) as [_ Hne].
  unfold dict_values. rewrite Forall_forall in *.
  intros g Hg. apply in_map_iff in Hg as [g' [<- Hg']]. now apply Hne.
Qed.

Lemma all_groups_Forall (P : Activity -> Prop) (idx : Index) :
  index_all (fun _ _ a => P a) idx -> Forall (Forall P) (all_groups idx).
Proof.
  intros Hall. unfold all_groups, index_all in *.
  apply Forall_flat_map. rewrite Forall_forall in *.
  intros e He. specialize (Hall e He).
  unfold dict_values. rewrite Forall_forall in *.
  intros g Hg. apply in_map_iff in Hg as [g' [<- Hg']]. now apply Hall.
Qed.

Lemma choice_Forall (P : Activity -> Prop) (gs : list (list Activity))
  (c : list Activity) :
  Forall (Forall P) gs -> Forall2 (fun g a => In a g) gs c -> Forall P c.
Proof.
  intros Hgs Hc. induction Hc as [|g a gs c Ha Hc IH]; [constructor|].
  inversion Hgs as [|? ? Hg Hgs']; subst.
  constructor; [|now apply IH].
  rewrite Forall_forall in Hg. now apply Hg.
Qed.

Lemma catalog_ok_index (data : Data) :
  catalog_ok data = true ->
  index_all (fun _ _ a => activity_ok a = true) (get_subject_activities data).
Proof.
  intros Hok. apply get_subject_activities_all.
  intros s a Hs Ha. unfold catalog_ok in Hok.
  rewrite forallb_forall in Hok. specialize (Hok s Hs).
  rewrite forallb_forall in Hok. now apply Hok.
Qed.

Lemma complete_schedules_ok (data : Data) (c : list Activity) :
  catalog_ok data = true ->
  In c (complete_schedules data) ->
  Forall (fun a => activity_ok a = true) c.
Proof.
  intros Hok Hc. unfold complete_schedules in Hc. apply in_choices in Hc.
  eapply choice_Forall; [|exact Hc].
  apply all_groups_Forall. now apply catalog_ok_index.
Qed.

(** ** Scoring is defined on parsed activities *)

Lemma activity_ok_parsed (a : Activity) :
  activity_ok a = true ->
  exists s d,
    time_to_minutes (start_time a) = Some s /\ PyStr.int (duration a) = Some d.
Proof.
  unfold activity_ok. intros H.
  destruct (time_to_minutes (start_time a)) as [s|]; [|discriminate].
  destruct (PyStr.int (duration a)) as [d|]; [|discriminate].
  now exists s, d.
Qed.

Lemma score_time_restrictions_defined (o : Optimization) (a : Activity) :
  activity_ok a = true -> exists q, score_time_restrictions o a = Some q.
Proof.
  intros H. destruct (activity_ok_parsed a H) as [s [d [Hs Hd]]].
  unfold score_time_restrictions. rewrite Hs, Hd. simpl. eauto.
Qed.

Lemma check_clash_defined (a b : Activity) :
  activity_ok a = true -> activity_ok b = true ->
  check_clash a b = Some (clashes a b).
Proof.
  intros Ha Hb.
  destruct (activity_ok_parsed a Ha) as [s1 [d1 [Hs1 Hd1]]].
  destruct (activity_ok_parsed b Hb) as [s2 [d2 [Hs2 Hd2]]].
  unfold clashes, check_clash. rewrite Hs1, Hd1, Hs2, Hd2. simpl.
  destruct (negb (day_of_week a =? day_of_week b)%string); [reflexivity|].
  now destruct (negb _).
Qed.

(** The order of a pair does not matter to [check_clash]: the pairs it
    counts are unordered. *)
Lemma check_clash_sym (a b : Activity) : check_clash a b = check_clash b a.
Proof.
  unfold check_clash. rewrite (String.eqb_sym (day_of_week b)).
  destruct (negb (day_of_week a =? day_of_week b)%string); [reflexivity|].
  destruct (time_to_minutes (start_time a)) as [s1|],
           (PyStr.int (duration a)) as [d1|],
           (time_to_minutes (start_time b)) as [s2|],
           (PyStr.int (duration b)) as [d2|]; cbn [bind]; try reflexivity.
  now rewrite orb_comm.
Qed.

Lemma mapM_defined {A B : Type} (f : A -> option B) (l : list A) :
  Forall (fun x => exists y, f x = Some y) l ->
  exists ys, mapM f l = Some ys /\ Forall2 (fun x y => f x = Some y) l ys.
Proof.
  induction 1 as [|x l [y Hy] _ [ys [Hys Hall]]]; simpl.
  - exists []. split; [reflexivity | constructor].
  - exists (y :: ys). rewrite Hy, Hys. simpl. split; [reflexivity|].
    now constructor.
Qed.

(** ** The index loops count the clashing pairs *)

Lemma skipn_nth_error {A : Type} (l : list A) (i : nat) (a : A) :
  nth_error l i = Some a -> skipn i l = a :: skipn (S i) l.
Proof.
  revert i. induction l as [|x l IH]; intros [|i] H; simpl in *;
    try discriminate.
  - now inversion H.
  - now apply IH.
Qed.

Section ClashLoops.

Variable activities : list Activity.
Hypothesis activities_ok : Forall (fun a => activity_ok a = true) activities.

Lemma nth_error_ok (i : nat) (a : Activity) :
  nth_error activities i = Some a -> activity_ok a = true.
Proof.
  intros H. apply nth_error_In in H.
  rewrite Forall_forall in activities_ok. now apply activities_ok.
Qed.

Lemma inner_loop_counts (i : nat) (ai : Activity) :
  nth_error activities i = Some ai ->
  forall m j cnt,
    (j + m = List.length activities)%nat ->
    foldM (clash_step activities i) (seq j m) cnt =
    Some (cnt + Z.of_nat (List.length (filter (clashes ai) (skipn j activities)))).
Proof.
  intros Hi m. induction m as [|m IH]; intros j cnt Hlen; simpl.
  - rewrite skipn_all2 by lia. simpl. f_equal. lia.
  - destruct (nth_error activities j) as [aj|] eqn:Hj.
    2:{ apply nth_error_None in Hj. lia. }
    unfold clash_step at 1. unfold list_get. rewrite Hi, Hj. simpl.
    rewrite (check_clash_defined ai aj)
      by eauto using nth_error_ok.
    simpl. rewrite IH by lia.
    rewrite (skipn_nth_error _ _ _ Hj). simpl.
    destruct (clashes ai aj); simpl; apply f_equal; lia.
Qed.

Lemma outer_loop_counts :
  forall m i cnt,
    (i + m = List.length activities)%nat ->
    foldM
      (fun clash_count i =>
         foldM (clash_step activities i) (range (i + 1) (List.length activities)) clash_count)
      (seq i m) cnt =
    Some (cnt + clashing_pairs (skipn i activities)).
Proof.
  induction m as [|m IH]; intros i cnt Hlen; simpl.
  - rewrite skipn_all2 by lia. simpl. f_equal. lia.
  - destruct (nth_error activities i) as [ai|] eqn:Hi.
    2:{ apply nth_error_None in Hi. lia. }
    unfold range. rewrite (inner_loop_counts i ai Hi) by lia. simpl.
    rewrite IH by lia.
    rewrite (skipn_nth_error _ _ _ Hi). cbn [clashing_pairs].
    replace (i + 1)%nat with (S i) by lia. apply f_equal. lia.
Qed.

Lemma count_clashes_spec : count_clashes activities = Some (clashing_pairs activities).
Proof.
  unfold count_clashes.
  replace (range 0 (List.length activities))
    with (seq 0 (List.length activities))
    by (unfold range; now rewrite Nat.sub_0_r).
  exact (outer_loop_counts (List.length activities) 0 0 eq_refl).
Qed.

End ClashLoops.

(** ** Exact arithmetic of the combined score *)

Lemma fold_left_Qplus (l : list Q) (a : Q) :
  (fold_left Qplus l a == a + fold_right Qplus 0 l)%Q.
Proof.
  revert a. induction l as [|x l IH]; intros a; simpl.
  - ring.
  - rewrite IH. ring.
Qed.

Lemma sum_mean {A : Type} (xs : list Q) (l : list A) :
  List.length xs = List.length l -> (sum xs / len l == mean xs)%Q.
Proof.
  intros Hlen. unfold sum, mean, len. rewrite fold_left_Qplus, Hlen.
  now rewrite Qplus_0_l.
Qed.

Lemma total_pairs_double (l : list Activity) :
  2 * total_pairs l =
  Z.of_nat (List.length l) * (Z.of_nat (List.length l) - 1).
Proof.
  induction l as [|a l IH]; [reflexivity|].
  cbn [total_pairs List.length]. rewrite Nat2Z.inj_succ. lia.
Qed.

Lemma total_pairs_pos (l : list Activity) :
  (2 <= List.length l)%nat <-> 0 < total_pairs l.
Proof.
  pose proof (total_pairs_double l) as H.
  split; intros H'; nia.
Qed.

Lemma clashing_pairs_bounds (l : list Activity) :
  0 <= clashing_pairs l <= total_pairs l.
Proof.
  induction l as [|a l IH]; simpl; [lia|].
  pose proof (filter_length_le (clashes a) l). lia.
Qed.

Lemma total_possible_clashes_spec (l : list Activity) :
  (len l * (len l - 1) / 2 == inject_Z (total_pairs l))%Q.
Proof.
  unfold len. pose proof (total_pairs_double l) as H.
  set (n := Z.of_nat (List.length l)) in *.
  assert (Hq : (inject_Z 2 * inject_Z (total_pairs l) ==
                inject_Z n * (inject_Z n + inject_Z (-1)))%Q).
  { rewrite <- inject_Z_plus, <- !inject_Z_mult.
    apply inject_Z_injective. lia. }
  change (inject_Z n * (inject_Z n - 1))%Q
    with (inject_Z n * (inject_Z n + inject_Z (-1)))%Q.
  rewrite <- Hq. change (inject_Z 2) with 2%Q. field.
Qed.

Lemma Qcompare_inject_Z_0 (x : Z) : Qcompare (inject_Z x) 0 = (x ?= 0)%Z.
Proof. unfold Qcompare. simpl. now rewrite Z.mul_1_r. Qed.

Lemma clash_score_refines (l : list Activity) :
  Forall (fun a => activity_ok a = true) l ->
  exists cs, clash_score l = Some cs /\ (cs == clash_score_spec l)%Q.
Proof.
  intros Hok. unfold clash_score, clash_score_spec.
  pose proof (total_possible_clashes_spec l) as Htot.
  pose proof (total_pairs_pos l) as Hpos.
  destruct (Qcompare (len l * (len l - 1) / 2) 0) eqn:Hcmp;
    rewrite Htot, Qcompare_inject_Z_0 in Hcmp.
  - exists 1%Q. split; [reflexivity|].
    apply Z.compare_eq in Hcmp.
    destruct (Nat.ltb_spec (List.length l) 2); [reflexivity | lia].
  - exists 1%Q. split; [reflexivity|].
    rewrite Z.compare_lt_iff in Hcmp.
    destruct (Nat.ltb_spec (List.length l) 2); [reflexivity | lia].
  - rewrite Z.compare_gt_iff in Hcmp.
    rewrite (count_clashes_spec l Hok). simpl.
    eexists. split; [reflexivity|].
    destruct (Nat.ltb_spec (List.length l) 2); [lia|].
    now rewrite Htot.
Qed.

Lemma score_activity_combination_defined (o : Optimization) (l : list Activity) :
  Forall (fun a => activity_ok a = true) l ->
  exists s, score_activity_combination o l = Some s.
Proof.
  intros Hok. destruct l as [|a l]; [now exists NegInf|].
  unfold score_activity_combination.
  destruct (mapM_defined (score_time_restrictions o) (a :: l)) as [ts [Hts _]].
  { eapply Forall_impl; [|exact Hok].
    intros b Hb. now apply score_time_restrictions_defined. }
  rewrite Hts. cbn [bind].
  destruct (clash_score_refines (a :: l) Hok) as [cs [Hcs _]].
  rewrite Hcs. cbn [bind]. eauto.
Qed.

Lemma score_NegInf_nil (o : Optimization) (l : list Activity) :
  score_activity_combination o l = Some NegInf -> l = [].
Proof.
  destruct l as [|a l]; [reflexivity|].
  unfold score_activity_combination.
  destruct (mapM _ _); simpl; [|discriminate].
  destruct (clash_score _); simpl; discriminate.
Qed.

(** ** The order on scores *)

Lemma pf_gtb_true (x y : pyfloat) : pf_gtb x y = true -> pf_lt y x.
Proof.
  destruct x as [|a], y as [|b]; simpl; try discriminate; auto.
  destruct (Qcompare a b) eqn:H; try discriminate. intros _.
  now apply Qgt_alt.
Qed.

Lemma pf_gtb_false (x y : pyfloat) : pf_gtb x y = false -> pf_le x y.
Proof.
  destruct x as [|a], y as [|b]; simpl; try discriminate; auto.
  destruct (Qcompare a b) eqn:H; try discriminate; intros _;
    apply Qle_alt; congruence.
Qed.

Lemma pf_le_refl (x : pyfloat) : pf_le x x.
Proof. destruct x; simpl; [exact I | apply Qle_refl]. Qed.

Lemma pf_lt_le (x y : pyfloat) : pf_lt x y -> pf_le x y.
Proof.
  destruct x, y; simpl; auto. apply Qlt_le_weak.
Qed.

Lemma pf_lt_trans (x y z : pyfloat) : pf_lt x y -> pf_lt y z -> pf_lt x z.
Proof.
  destruct x, y, z; simpl; try tauto. apply Qlt_trans.
Qed.

Lemma pf_le_lt_trans (x y z : pyfloat) : pf_le x y -> pf_lt y z -> pf_lt x z.
Proof.
  destruct x, y, z; simpl; try tauto. apply Qle_lt_trans.
Qed.

Lemma pf_le_NegInf (x : pyfloat) : pf_le x NegInf -> x = NegInf.
Proof. destruct x; simpl; [reflexivity | contradiction]. Qed.

(** ** The search keeps the first candidate of greatest score *)

Lemma score_of_defined (o : Optimization) (c : list Activity) (s : pyfloat) :
  score_activity_combination o c = Some s -> score_of o c = s.
Proof. unfold score_of. now intros ->. Qed.

Lemma foldM_visit_first_best (o : Optimization) (l : list (list Activity)) :
  (forall c, In c l -> exists s, score_activity_combination o c = Some s) ->
  forall st,
  exists st',
    foldM (visit o) l st = Some st' /\
    scored st' = scored st ++ l /\
    first_best o l (best_combination st) (best_score st)
      (best_combination st') (best_score st').
Proof.
  induction l as [|c l IH]; intros Hdef st.
  - exists st. simpl. rewrite app_nil_r. repeat split. left. auto.
  - destruct (Hdef c (or_introl eq_refl)) as [sc Hsc].
    pose proof (score_of_defined o c sc Hsc) as Hof.
    assert (Hdef' : forall c', In c' l ->
                     exists s, score_activity_combination o c' = Some s)
      by (intros c' Hc'; apply Hdef; now right).
    cbn [foldM]. unfold visit at 1. unfold record_candidate. rewrite Hsc. cbn [bind].
    destruct (pf_gtb sc (best_score st)) eqn:Hgt; cbn [bind].
    + apply pf_gtb_true in Hgt.
      destruct (IH Hdef'
                  {| best_combination := c; best_score := sc;
                     scored := scored st ++ [c] |})
        as [st' [Hrun [Hlog Hbest]]].
      exists st'. cbn [best_combination best_score scored] in *.
      split; [exact Hrun|]. split; [now rewrite Hlog, <- app_assoc|].
      right. destruct Hbest as [[Hb [Hs Hall]] | [pre [post [Hl [Hs [Hlt [Hpre Hpost]]]]]]].
      * exists [], l. rewrite Hb, Hs. repeat split; auto.
      * exists (c :: pre), post. rewrite Hl. repeat split; auto.
        -- eapply pf_lt_trans; eassumption.
        -- constructor; [now rewrite Hof | exact Hpre].
    + apply pf_gtb_false in Hgt.
      destruct (IH Hdef'
                  {| best_combination := best_combination st;
                     best_score := best_score st;
                     scored := scored st ++ [c] |})
        as [st' [Hrun [Hlog Hbest]]].
      exists st'. cbn [best_combination best_score scored] in *.
      split; [exact Hrun|]. split; [now rewrite Hlog, <- app_assoc|].
      destruct Hbest as [[Hb [Hs Hall]] | [pre [post [Hl [Hs [Hlt [Hpre Hpost]]]]]]].
      * left. repeat split; auto. constructor; [now rewrite Hof | exact Hall].
      * right. exists (c :: pre), post. rewrite Hl. repeat split; auto.
        constructor; [|exact Hpre].
        rewrite Hof. eapply pf_le_lt_trans; eassumption.
Qed.

(** The whole run, on a catalog whose activities parse. *)
Lemma run_search_spec (data : Data) :
  catalog_ok data = true ->
  exists st,
    run_search data = Some st /\
    scored st = complete_schedules data /\
    first_best (optimization data) (complete_schedules data) [] NegInf
      (best_combination st) (best_score st).
Proof.
  intros Hok. unfold run_search.
  rewrite try_subject_combinations_visits.
  rewrite subjects_by_lookup_all by apply get_subject_activities_wf.
  fold (complete_schedules data).
  rewrite (map_ext _ (fun c => c) (fun c => eq_refl)), map_id.
  destruct (foldM_visit_first_best (optimization data) (complete_schedules data))
    with (st := initial_state) as [st' [Hrun [Hlog Hbest]]].
  - intros c Hc. apply score_activity_combination_defined.
    now apply complete_schedules_ok with (data := data).
  - exists st'. auto.
Qed.

Lemma run_search_first_maximum (data : Data) :
  catalog_ok data = true ->
  exists st pre post,
    run_search data = Some st /\
    scored st = complete_schedules data /\
    complete_schedules data = pre ++ best_combination st :: post /\
    Forall (fun c => pf_lt (score_of (optimization data) c)
                       (score_of (optimization data) (best_combination st))) pre /\
    Forall (fun c => pf_le (score_of (optimization data) c)
                       (score_of (optimization data) (best_combination st))) post.
Proof.
  intros Hok.
  destruct (run_search_spec data Hok) as [st [Hrun [Hlog Hbest]]].
  exists st.
  destruct Hbest as [[Hb [Hs Hall]] | [pre [post [Hl [Hs [Hlt [Hpre Hpost]]]]]]].
  - assert (Hnil : forall c, In c (complete_schedules data) -> c = []).
    { intros c Hc. rewrite Forall_forall in Hall.
      apply (score_NegInf_nil (optimization data)).
      destruct (score_activity_combination_defined (optimization data) c)
        as [s Hsc]; [now apply complete_schedules_ok with (data := data)|].
      rewrite Hsc. f_equal.
      rewrite <- (score_of_defined _ _ _ Hsc).
      apply pf_le_NegInf. now apply Hall. }
    destruct (complete_schedules data) as [|c0 post] eqn:Hcs.
    { exfalso. revert Hcs. apply choices_not_nil, all_groups_not_nil,
        get_subject_activities_wf. }
    pose proof (Hnil c0 (or_introl eq_refl)) as Hc0. subst c0.
    exists [], post. rewrite Hb.
    split; [exact Hrun|]. split; [exact Hlog|]. split; [reflexivity|].
    split; [constructor|].
    apply Forall_forall. intros c Hc.
    rewrite (Hnil c (or_intror Hc)). exact I.
  - exists pre, post. rewrite <- Hs. auto.
Qed.

Lemma Forall2_map_left {A B C : Type} (R : B -> C -> Prop) (f : A -> B)
  (l : list A) (l' : list C) :
  Forall2 R (map f l) l' -> Forall2 (fun x y => R (f x) y) l l'.
Proof.
  revert l'. induction l as [|x l IH]; intros l' H; inversion H; subst;
    constructor; auto.
Qed.

Lemma Forall2_map_eq {A B : Type} (f : B -> A) (l : list A) (l' : list B) :
  Forall2 (fun x y => f y = x) l l' -> map f l' = l.
Proof.
  induction 1; simpl; [reflexivity | now f_equal].
Qed.

Lemma group_code_index (data : Data) :
  index_all (fun _ g a => activity_group_code a = g) (get_subject_activities data).
Proof. apply get_subject_activities_all. reflexivity. Qed.

Lemma subject_code_index (data : Data) :
  subject_codes_consistent data = true ->
  index_all (fun s _ a => subject_code a = s) (get_subject_activities data).
Proof.
  intros Hc. apply get_subject_activities_all.
  intros s a Hs Ha. unfold subject_codes_consistent in Hc.
  rewrite forallb_forall in Hc. specialize (Hc s Hs).
  rewrite forallb_forall in Hc. now apply String.eqb_eq, Hc.
Qed.

(** ** The claims about scoring *)

(** C4: for a non-empty list of activities that parse, the combined score
    is 0.5 times the mean of the day-avoidance scores plus 0.3 times the
    mean of the time-window scores plus 0.2 times the clash score; the
    clash score is 1 for fewer than two activities and otherwise 1 minus
    the number of clashing unordered pairs over the number of unordered
    pairs. *)
Theorem combined_score_formula (o : Optimization) (l : list Activity) :
  l <> [] ->
  Forall (fun a => activity_ok a = true) l ->
  exists time_scores cs s,
    Forall2 (fun a t => score_time_restrictions o a = Some t) l time_scores /\
    clash_score l = Some cs /\
    (cs == clash_score_spec l)%Q /\
    score_activity_combination o l = Some (Fin s) /\
    (s == combined_score_spec (map (score_avoid_days o) l) time_scores l)%Q.
Proof.
  intros Hne Hok.
  destruct (mapM_defined (score_time_restrictions o) l) as [ts [Hts Hall]].
  { eapply Forall_impl; [|exact Hok].
    intros b Hb. now apply score_time_restrictions_defined. }
  destruct (clash_score_refines l Hok) as [cs [Hcs Heq]].
  exists ts, cs. eexists.
  split; [exact Hall|]. split; [exact Hcs|]. split; [exact Heq|].
  destruct l as [|a l]; [contradiction|].
  unfold score_activity_combination. rewrite Hts, Hcs. cbn [bind].
  split; [reflexivity|].
  unfold combined_score_spec.
  rewrite (sum_mean (map (score_avoid_days o) (a :: l)) (a :: l))
    by apply length_map.
  rewrite (sum_mean ts (a :: l)) by (symmetry; exact (Forall2_length Hall)).
  rewrite Heq.
  unfold AVOID_DAYS_WEIGHT, TIME_RESTRICT_WEIGHT, CLASH_WEIGHT.
  setoid_replace (5 # 10)%Q with (1 # 2)%Q by reflexivity.
  setoid_replace (2 # 10)%Q with (1 # 5)%Q by reflexivity.
  reflexivity.
Qed.

Lemma combined_score_formula_witness :
  [wed_0900; wed_0930] <> [] /\
  Forall (fun a => activity_ok a = true) [wed_0900; wed_0930] /\
  exists time_scores cs s,
    Forall2
      (fun a t => score_time_restrictions (optimization sample_input) a = Some t)
      [wed_0900; wed_0930] time_scores /\
    clash_score [wed_0900; wed_0930] = Some cs /\
    (cs == clash_score_spec [wed_0900; wed_0930])%Q /\
    score_activity_combination (optimization sample_input) [wed_0900; wed_0930] =
      Some (Fin s) /\
    (s == combined_score_spec
            (map (score_avoid_days (optimization sample_input)) [wed_0900; wed_0930])
            time_scores [wed_0900; wed_0930])%Q.
Proof.
  split; [discriminate|].
  split; [repeat constructor|].
  apply (combined_score_formula (optimization sample_input) [wed_0900; wed_0930]).
  - discriminate.
  - repeat constructor.
Defined.

(** C5: [check_clash] answers [False] for two activities on different
    weekdays, whatever their times; for two activities whose times parse
    and whose durations are positive it answers [True] exactly when they
    have the same weekday and their half-open minute intervals
    [[start, start + duration)] share a minute. *)
Theorem check_clash_same_day_overlap :
  (forall a1 a2,
      day_of_week a1 <> day_of_week a2 -> check_clash a1 a2 = Some false) /\
  (forall a1 a2 s1 d1 s2 d2,
      time_to_minutes (start_time a1) = Some s1 ->
      PyStr.int (duration a1) = Some d1 ->
      time_to_minutes (start_time a2) = Some s2 ->
      PyStr.int (duration a2) = Some d2 ->
      0 < d1 -> 0 < d2 ->
      exists b,
        check_clash a1 a2 = Some b /\
        (b = true <->
         day_of_week a1 = day_of_week a2 /\ intervals_overlap s1 d1 s2 d2)).
Proof.
  split.
  - intros a1 a2 Hday. unfold check_clash.
    apply String.eqb_neq in Hday. now rewrite Hday.
  - intros a1 a2 s1 d1 s2 d2 Hs1 Hd1 Hs2 Hd2 Hp1 Hp2.
    unfold check_clash, intervals_overlap. rewrite Hs1, Hd1, Hs2, Hd2.
    cbn [bind].
    destruct (String.eqb_spec (day_of_week a1) (day_of_week a2)) as [Heq | Hne];
      cbn [negb].
    + eexists. split; [reflexivity|].
      rewrite negb_true_iff, orb_false_iff, !Z.leb_gt. split.
      * intros [H1 H2]. split; [exact Heq|].
        exists (Z.max s1 s2). lia.
      * intros [_ [t Ht]]. lia.
    + exists false. split; [reflexivity|].
      split; [discriminate | intros [Heq _]; contradiction].
Qed.

Lemma check_clash_same_day_overlap_witness :
  0 < 60 /\
  exists b,
    check_clash wed_0900 wed_0930 = Some b /\
    (b = true <->
     day_of_week wed_0900 = day_of_week wed_0930 /\
     intervals_overlap 540 60 570 60).
Proof.
  split; [lia|].
  apply (proj2 check_clash_same_day_overlap wed_0900 wed_0930 540 60 570 60);
    solve [reflexivity | lia].
Defined.

(** ** Day avoidance *)

Lemma str_in_In (x : string) (l : list string) : str_in x l = true <-> In x l.
Proof.
  unfold str_in. rewrite existsb_exists. split.
  - intros [y [Hy Heq]]. apply String.eqb_eq in Heq. now subst.
  - intros H. exists x. split; [exact H | apply String.eqb_refl].
Qed.

Lemma score_avoid_days_zero (o : Optimization) (a : Activity) :
  score_avoid_days o a = 0%Q <->
  In (day_key (day_of_week a)) (map day_key (avoidDays o)).
Proof.
  unfold score_avoid_days. rewrite <- str_in_In.
  destruct (str_in _ _); split; congruence || discriminate.
Qed.

Lemma score_avoid_days_one (o : Optimization) (a : Activity) :
  score_avoid_days o a = 1%Q <->
  ~ In (day_key (day_of_week a)) (map day_key (avoidDays o)).
Proof.
  unfold score_avoid_days. rewrite <- str_in_In.
  destruct (str_in _ _); split; try congruence; try discriminate.
Qed.

Lemma length_lower (s : string) : String.length (PyStr.lower s) = String.length s.
Proof. induction s as [|c s IH]; simpl; [reflexivity | now rewrite IH]. Qed.

Lemma take_prefix (n : nat) :
  forall p s,
    String.prefix p s = true -> (n <= String.length p)%nat ->
    PyStr.take n p = PyStr.take n s.
Proof.
  induction n as [|n IH]; intros [|a p] [|b s] Hpre Hlen; simpl in *;
    try reflexivity; try discriminate; try lia.
  destruct (ascii_dec a b) as [-> | _]; [|discriminate].
  f_equal. apply IH; [exact Hpre | lia].
Qed.

Lemma denotes_day_key (s : string) (w : Weekday) :
  denotes s w -> day_key s = weekday_key w.
Proof.
  intros [Hlen Hpre]. unfold day_key.
  rewrite (take_prefix 3 _ _ Hpre) by now rewrite length_lower.
  now destruct w.
Qed.

Lemma weekday_key_injective (w1 w2 : Weekday) :
  weekday_key w1 = weekday_key w2 -> w1 = w2.
Proof. destruct w1, w2; simpl; intros H; reflexivity || discriminate H. Qed.

Lemma take_lower (n : nat) (s : string) :
  PyStr.take n (PyStr.lower s) = PyStr.lower (PyStr.take n s).
Proof.
  revert s. induction n as [|n IH]; intros [|c s]; simpl; try reflexivity.
  now rewrite IH.
Qed.

(** C6: the day-avoidance score is 0 or 1; when the activity's day and the
    entries of [avoidDays] spell weekdays (by name or abbreviation, in any
    letter case), it is 1 exactly when the activity's weekday is not one
    of the weekdays to avoid. *)
Theorem score_avoid_days_weekday :
  (forall o a, score_avoid_days o a = 0%Q \/ score_avoid_days o a = 1%Q) /\
  (forall o a w ws,
      denotes (day_of_week a) w ->
      Forall2 denotes (avoidDays o) ws ->
      (score_avoid_days o a = 1%Q <-> ~ In w ws)).
Proof.
  split.
  - intros o a. unfold score_avoid_days. destruct (str_in _ _); auto.
  - intros o a w ws Hday Havoid.
    rewrite score_avoid_days_one, (denotes_day_key _ _ Hday).
    assert (Hkeys : map day_key (avoidDays o) = map weekday_key ws).
    { induction Havoid as [|d w' ds ws' Hd _ IH]; simpl; [reflexivity|].
      now rewrite IH, (denotes_day_key _ _ Hd). }
    rewrite Hkeys. split; intros H Hin; apply H.
    + now apply in_map.
    + apply in_map_iff in Hin as [w' [Heq Hin]].
      apply weekday_key_injective in Heq. now subst.
Qed.

Lemma score_avoid_days_weekday_witness :
  denotes "Thu" Thu /\
  Forall2 denotes ["tue"; "thu"] [Tue; Thu] /\
  (score_avoid_days (optimization sample_input)
     (mk_activity "INTS3003-S1C-ND-CC" "Lecture" "01" "Thu" "09:00" "120") = 1%Q <->
   ~ In Thu [Tue; Thu]).
Proof.
  assert (Hd : denotes "Thu" Thu) by (split; [simpl; lia | reflexivity]).
  assert (Ha : Forall2 denotes ["tue"; "thu"] [Tue; Thu])
    by (repeat constructor; simpl; lia).
  split; [exact Hd|]. split; [exact Ha|].
  exact (proj2 score_avoid_days_weekday (optimization sample_input)
           (mk_activity "INTS3003-S1C-ND-CC" "Lecture" "01" "Thu" "09:00" "120")
           Thu [Tue; Thu] Hd Ha).
Defined.

(** ** The empty catalog *)

(** C8: for a catalog with no subjects the search scores one candidate,
    the empty schedule, whose score is negative infinity; the initial
    empty best is kept and returned, and the formatter returns no line. *)
Theorem empty_catalog_result (o : Optimization) :
  let data := {| subjects := []; optimization := o |} in
  run_search data =
    Some {| best_combination := []; best_score := NegInf; scored := [[]] |} /\
  score_activity_combination o [] = Some NegInf /\
  pf_gtb NegInf (best_score initial_state) = false /\
  TimetableOptimizer.optimize_timetable data = Some [] /\
  format_output [] = [] /\
  Optimal.optimize_timetable data = Some [].
Proof. repeat split. Qed.

(** ** The range of the scores *)

Lemma score_avoid_days_range (o : Optimization) (a : Activity) :
  (0 <= score_avoid_days o a <= 1)%Q.
Proof.
  unfold score_avoid_days. destruct (str_in _ _); split; discriminate.
Qed.

Lemma clash_score_range (l : list Activity) :
  Forall (fun a => activity_ok a = true) l ->
  exists cs, clash_score l = Some cs /\ (0 <= cs <= 1)%Q.
Proof.
  intros Hok. destruct (clash_score_refines l Hok) as [cs [Hcs Heq]].
  exists cs. split; [exact Hcs|]. rewrite Heq. unfold clash_score_spec.
  destruct (Nat.ltb_spec (List.length l) 2) as [Hlt | Hge].
  - split; discriminate.
  - apply total_pairs_pos in Hge.
    pose proof (clashing_pairs_bounds l) as [Hlo Hhi].
    set (c := clashing_pairs l) in *. set (t := total_pairs l) in *.
    assert (Hdiv : (0 <= inject_Z c / inject_Z t <= 1)%Q).
    { assert (Ht : (0 < inject_Z t)%Q) by (unfold Qlt; simpl; lia).
      assert (Hc : (0 <= inject_Z c)%Q) by (unfold Qle; simpl; lia).
      assert (Hct : (inject_Z c <= inject_Z t)%Q) by (unfold Qle; simpl; lia).
      split.
      - apply Qle_shift_div_l; [exact Ht|]. now rewrite Qmult_0_l.
      - apply Qle_shift_div_r; [exact Ht|]. now rewrite Qmult_1_l. }
    destruct Hdiv as [H0 H1]. split.
    + apply Qle_minus_iff in H1. exact H1.
    + apply Qle_minus_iff.
      setoid_replace (1 + - (1 - inject_Z c / inject_Z t))%Q
        with (inject_Z c / inject_Z t)%Q by ring.
      exact H0.
Qed.

Lemma score_time_restrictions_le_1 (o : Optimization) (a : Activity) (q : Q) :
  score_time_restrictions o a = Some q -> (q <= 1)%Q.
Proof.
  unfold score_time_restrictions.
  destruct (time_to_minutes (start_time a)) as [s|]; [|discriminate].
  destruct (PyStr.int (duration a)) as [d|]; [|discriminate].
  cbn [bind]. intros H. inversion H as [Hq]. clear H Hq.
  apply Qle_minus_iff.
  match goal with
  | |- (0 <= 1 + - (1 - ?x))%Q => setoid_replace (1 + - (1 - x))%Q with x by ring
  end.
  apply Qle_shift_div_l; [reflexivity|].
  rewrite Qmult_0_l. unfold Qle. simpl. lia.
Qed.

(** C3: the time-window score is not confined to [[0, 1]]: a class at
    08:00 for 60 minutes against the window 21:00-23:00 deviates by
    780 + 720 minutes, more than the 1440 taken as the maximum, and
    scores -1/24.  The day-avoidance and clash scores do stay in
    [[0, 1]] ([score_avoid_days_range], [clash_score_range]). *)
Theorem score_time_restrictions_negative :
  exists q,
    score_time_restrictions evening_window mon_0800 = Some q /\
    (q == - (1 # 24))%Q /\ (q < 0)%Q.
Proof.
  eexists. split; [reflexivity|]. split; reflexivity.
Qed.

(** ** The result formatter *)

Lemma str_le_trans (x y z : string) : str_le x y -> str_le y z -> str_le x z.
Proof.
  unfold str_le, String.leb. revert y z.
  induction x as [|a x IH]; intros [|b y] [|c z]; simpl; try congruence.
  unfold Ascii.compare.
  destruct (N.compare_spec (N_of_ascii a) (N_of_ascii b)) as [Hab | Hab | Hab];
    destruct (N.compare_spec (N_of_ascii b) (N_of_ascii c)) as [Hbc | Hbc | Hbc];
    try congruence.
  - rewrite Hab, Hbc, N.compare_refl. apply IH.
  - intros _ _. rewrite Hab. now apply N.compare_lt_iff in Hbc as ->.
  - intros _ _. rewrite <- Hbc. now apply N.compare_lt_iff in Hab as ->.
  - intros _ _.
    assert (H : (N_of_ascii a < N_of_ascii c)%N) by lia.
    now apply N.compare_lt_iff in H as ->.
Qed.

Lemma insert_sorted_perm (x : string) (l : list string) :
  Permutation (x :: l) (insert_sorted x l).
Proof.
  induction l as [|y l IH]; simpl; [reflexivity|].
  destruct (String.leb x y); [reflexivity|].
  rewrite perm_swap. now constructor.
Qed.

Lemma sorted_perm (l : list string) : Permutation l (sorted l).
Proof.
  induction l as [|x l IH]; simpl; [constructor|].
  rewrite <- insert_sorted_perm. now constructor.
Qed.

Lemma insert_sorted_sorted (x : string) (l : list string) :
  StronglySorted str_le l -> StronglySorted str_le (insert_sorted x l).
Proof.
  induction 1 as [|y l Hl IH Hy]; simpl.
  - repeat constructor.
  - destruct (String.leb x y) eqn:Hxy.
    + constructor; [now constructor|].
      constructor; [exact Hxy|].
      eapply Forall_impl; [|exact Hy].
      intros z Hz. now apply str_le_trans with y.
    + constructor; [exact IH|].
      rewrite <- insert_sorted_perm. constructor; [|exact Hy].
      destruct (String.leb_total x y) as [H | H]; [congruence | exact H].
Qed.

Lemma sorted_sorted (l : list string) : StronglySorted str_le (sorted l).
Proof.
  induction l as [|x l IH]; simpl; [constructor|].
  now apply insert_sorted_sorted.
Qed.

Lemma sorted_unique (l1 l2 : list string) :
  StronglySorted str_le l1 -> StronglySorted str_le l2 ->
  Permutation l1 l2 -> l1 = l2.
Proof.
  intros H1. revert l2.
  induction H1 as [|x l1 Hl1 IH Hx]; intros l2 H2 Hperm.
  - now apply Permutation_nil in Hperm.
  - destruct H2 as [|y l2 Hl2 Hy].
    + symmetry in Hperm. now apply Permutation_nil in Hperm.
    + assert (Hxy : x = y).
      { rewrite Forall_forall in Hx, Hy.
        assert (Hin1 : In x (y :: l2))
          by (apply (Permutation_in _ Hperm); now left).
        assert (Hin2 : In y (x :: l1))
          by (apply (Permutation_in _ (Permutation_sym Hperm)); now left).
        destruct Hin1 as [-> | Hin1]; [reflexivity|].
        destruct Hin2 as [-> | Hin2]; [reflexivity|].
        apply String.leb_antisym; [now apply Hx | now apply Hy]. }
      subst y. f_equal. apply IH; [exact Hl2|].
      now apply Permutation_cons_inv in Hperm.
Qed.

Lemma output_loop (acc : list string) (l : list Activity) :
  fold_left (fun output activity => output ++ [format_activity activity]) l acc =
  acc ++ map format_activity l.
Proof.
  revert acc. induction l as [|a l IH]; intros acc; simpl.
  - now rewrite app_nil_r.
  - now rewrite IH, <- app_assoc.
Qed.

Lemma format_output_sorted_map (l : list Activity) :
  format_output l = sorted (map format_activity l).
Proof. unfold format_output. now rewrite output_loop. Qed.

(** C9: [format_output] returns the rendered lines of the schedule in
    lexicographic order, and returns the same list for any two schedules
    that are permutations of each other. *)
Theorem format_output_order_independent :
  (forall sched,
      StronglySorted str_le (format_output sched) /\
      Permutation (map format_activity sched) (format_output sched)) /\
  (forall sched1 sched2,
      Permutation sched1 sched2 -> format_output sched1 = format_output sched2).
Proof.
  split.
  - intros sched. rewrite format_output_sorted_map.
    split; [apply sorted_sorted | apply sorted_perm].
  - intros sched1 sched2 Hperm. rewrite !format_output_sorted_map.
    apply sorted_unique; try apply sorted_sorted.
    rewrite <- !sorted_perm. now apply Permutation_map.
Qed.

Lemma format_output_order_independent_witness :
  Permutation [wed_0900; wed_0930] [wed_0930; wed_0900] /\
  format_output [wed_0900; wed_0930] = format_output [wed_0930; wed_0900].
Proof.
  assert (H : Permutation [wed_0900; wed_0930] [wed_0930; wed_0900])
    by apply perm_swap.
  split; [exact H|].
  exact (proj2 format_output_order_independent _ _ H).
Defined.

(** ** Worked examples *)

(** Both tutorials are on the avoided day and score alike; the first one
    enumerated is kept. *)
Example tie_keeps_first_candidate :
  TimetableOptimizer.optimize_timetable tie_input =
    Some [lecture_mon; tutorial_tue_1000] /\
  pf_eq (score_of (optimization tie_input) [lecture_mon; tutorial_tue_1000])
        (score_of (optimization tie_input) [lecture_mon; tutorial_tue_1130]).
Proof. split; reflexivity. Qed.

Example sample_input_output :
  Optimal.optimize_timetable sample_input =
    Some [ "BMET5995-S1C-ND-CC | Lecture | Activity 01 | Mon 14:00 (120 mins)";
           "BMET5995-S1C-ND-CC | Practical | Activity 02 | Wed 09:30 (180 mins)";
           "INTS3003-S1C-ND-CC | Lecture | Activity 01 | Thu 09:00 (120 mins)";
           "INTS3003-S1C-ND-CC | Tutorial | Activity 01 | Fri 12:00 (60 mins)" ].
Proof. reflexivity. Qed.

Example overlapping_pair_scores_zero :
  check_clash wed_0900 wed_0930 = Some true /\
  exists q, clash_score [wed_0900; wed_0930] = Some q /\ (q == 0)%Q.
Proof.
  split; [reflexivity|]. eexists. split; reflexivity.
Qed.

(** The positivity of durations matters for the reading of a clash as a
    shared minute: an activity of no duration inside another one is
    reported as a clash although its interval is empty. *)
Remark check_clash_zero_duration :
  check_clash wed_1000_empty wed_0900_long = Some true /\
  ~ intervals_overlap 600 0 540 120.
Proof.
  split; [reflexivity|]. intros [t Ht]. lia.
Qed.

(** * Further properties of the optimizer *)

From Stdlib Require Import Lqa.

(** ** Reading back what [defaultdict] updates wrote *)

Lemma defaultdict_get_update {V : Type} (d : dict V) (k k' : string) (def : V)
  (f : V -> V) :
  defaultdict_get (defaultdict_update d k def f) k' def =
  if String.eqb k k' then f (defaultdict_get d k def)
  else defaultdict_get d k' def.
Proof.
  induction d as [|[k0 v] d IH]; simpl.
  - destruct (String.eqb k k'); reflexivity.
  - destruct (String.eqb_spec k0 k) as [E | N]; simpl.
    + subst k0. destruct (String.eqb k k'); reflexivity.
    + rewrite IH. destruct (String.eqb_spec k k') as [E | N'].
      * subst k'. apply String.eqb_neq in N. now rewrite N.
      * reflexivity.
Qed.

Lemma index_lookup_append (sa : Index) (s' g' : string) (a : Activity)
  (s g : string) :
  index_lookup (index_append sa s' g' a) s g =
  index_lookup sa s g ++
  (if (String.eqb s' s && String.eqb g' g)%bool then [a] else []).
Proof.
  unfold index_lookup, index_append.
  rewrite defaultdict_get_update.
  destruct (String.eqb_spec s' s) as [<- | Hs]; simpl.
  - rewrite defaultdict_get_update.
    destruct (String.eqb_spec g' g) as [<- | Hg]; [reflexivity|].
    now rewrite app_nil_r.
  - now rewrite app_nil_r.
Qed.

Lemma index_lookup_inner_loop (code : string) (acts : list Activity) :
  forall (sa : Index) (s g : string),
    index_lookup
      (fold_left
         (fun sa activity =>
            index_append sa code (activity_group_code activity) activity)
         acts sa) s g =
    index_lookup sa s g ++
    (if String.eqb code s
     then filter (fun a => String.eqb (activity_group_code a) g) acts
     else []).
Proof.
  induction acts as [|a acts IH]; intros sa s g; simpl.
  - destruct (String.eqb code s); now rewrite app_nil_r.
  - rewrite IH, index_lookup_append, <- app_assoc. f_equal.
    destruct (String.eqb code s); simpl; [|reflexivity].
    now destruct (String.eqb (activity_group_code a) g).
Qed.

Lemma index_lookup_outer_loop (subjs : list Subject) :
  forall (sa : Index) (s g : string),
    index_lookup
      (fold_left
         (fun sa subject =>
            fold_left
              (fun sa activity =>
                 index_append sa (subj_subject_code subject)
                   (activity_group_code activity) activity)
              (dict_values (subj_activities subject)) sa)
         subjs sa) s g =
    index_lookup sa s g ++
    filter (fun a => String.eqb (activity_group_code a) g)
      (flat_map (fun subj => dict_values (subj_activities subj))
         (filter (fun subj => String.eqb (subj_subject_code subj) s) subjs)).
Proof.
  induction subjs as [|subj subjs IH]; intros sa s g; simpl.
  - now rewrite app_nil_r.
  - rewrite IH, index_lookup_inner_loop, <- app_assoc. f_equal.
    destruct (String.eqb (subj_subject_code subj) s); simpl; [|reflexivity].
    now rewrite filter_app.
Qed.

(** X1: looking a subject code and a group code up in the index gives
    exactly the catalog's activities listed under that subject code with
    that group code, in catalog order; entries of the catalog that repeat a
    subject code are merged, and an unknown code gives the empty list. *)
Theorem get_subject_activities_lookup (data : Data) (s g : string) :
  index_lookup (get_subject_activities data) s g = activities_of data s g.
Proof.
  unfold get_subject_activities, activities_of.
  now rewrite index_lookup_outer_loop.
Qed.

(** ** Nothing is lost and nothing is repeated by the indexer *)

Lemma flat_map_update_perm {V : Type} (w : V -> list Activity) (d : dict V)
  (k : string) (def : V) (f : V -> V) (x : Activity) :
  w def = [] ->
  (forall v, Permutation (w (f v)) (x :: w v)) ->
  Permutation (flat_map (fun e => w (snd e)) (defaultdict_update d k def f))
    (x :: flat_map (fun e => w (snd e)) d).
Proof.
  intros Hdef Hf.
  induction d as [|[k0 v] d IH]; simpl.
  - rewrite app_nil_r. rewrite (Hf def), Hdef. reflexivity.
  - destruct (String.eqb k0 k); simpl.
    + rewrite (Hf v). reflexivity.
    + rewrite IH. symmetry. apply Permutation_middle.
Qed.

Lemma concat_all_groups (idx : Index) :
  List.concat (all_groups idx) =
  flat_map (fun e => flat_map (fun g => snd g) (snd e)) idx.
Proof.
  unfold all_groups.
  induction idx as [|e idx IH]; simpl; [reflexivity|].
  rewrite concat_app, IH. f_equal.
  unfold dict_values. now rewrite flat_map_concat_map.
Qed.

Lemma index_append_perm (sa : Index) (s g : string) (a : Activity) :
  Permutation (List.concat (all_groups (index_append sa s g a)))
    (a :: List.concat (all_groups sa)).
Proof.
  rewrite !concat_all_groups. unfold index_append.
  apply (flat_map_update_perm (fun groups => flat_map (fun g => snd g) groups)).
  - reflexivity.
  - intros groups. apply (flat_map_update_perm (fun l => l)).
    + reflexivity.
    + intros l. rewrite Permutation_app_comm. reflexivity.
Qed.

Lemma index_is_permutation (data : Data) :
  Permutation (List.concat (all_groups (get_subject_activities data)))
    (catalog_activities data).
Proof.
  unfold get_subject_activities, catalog_activities.
  assert (H : forall subjs sa,
             Permutation
               (List.concat
                  (all_groups
                     (fold_left
                        (fun sa subject =>
                           fold_left
                             (fun sa activity =>
                                index_append sa (subj_subject_code subject)
                                  (activity_group_code activity) activity)
                             (dict_values (subj_activities subject)) sa)
                        subjs sa)))
               (List.concat (all_groups sa) ++
                flat_map (fun s => dict_values (subj_activities s)) subjs)).
  { induction subjs as [|subj subjs IH]; intros sa; simpl.
    - now rewrite app_nil_r.
    - rewrite IH, app_assoc. apply Permutation_app_tail.
      generalize (dict_values (subj_activities subj)) as acts. clear IH.
      intros acts. revert sa.
      induction acts as [|a acts IHa]; intros sa; simpl.
      + now rewrite app_nil_r.
      + rewrite IHa, index_append_perm. simpl. apply Permutation_middle. }
  exact (H (subjects data) []).
Qed.

(** X2: the indexer loses and repeats nothing: the candidate lists of the
    index, taken together, are a permutation of the activities of the
    catalog; the subject keys are pairwise distinct, so are the group keys
    of each subject, and no group is empty. *)
Theorem get_subject_activities_complete (data : Data) :
  Permutation (List.concat (all_groups (get_subject_activities data)))
    (catalog_activities data) /\
  index_wf (get_subject_activities data).
Proof.
  split; [apply index_is_permutation | apply get_subject_activities_wf].
Qed.

(** ** The order of the keys of the index *)

Lemma dict_keys_update {V : Type} (d : dict V) (k : string) (def : V)
  (f : V -> V) :
  dict_keys (defaultdict_update d k def f) = note_key (dict_keys d) k.
Proof.
  unfold note_key, str_in.
  induction d as [|[k0 v] d IH]; simpl; [reflexivity|].
  rewrite (String.eqb_sym k k0).
  destruct (String.eqb k0 k); simpl; [reflexivity|].
  rewrite IH. now destruct (existsb (String.eqb k) (dict_keys d)).
Qed.

Lemma filter_filter_absorb {A : Type} (p q : A -> bool) (l : list A) :
  (forall y, p y = true -> q y = true) ->
  filter p (filter q l) = filter p l.
Proof.
  intros Hpq. induction l as [|x l IH]; simpl; [reflexivity|].
  destruct (q x) eqn:Hq; simpl.
  - now rewrite IH.
  - destruct (p x) eqn:Hp; [|exact IH].
    rewrite (Hpq x Hp) in Hq. discriminate.
Qed.

Lemma filter_comm {A : Type} (p q : A -> bool) (l : list A) :
  filter p (filter q l) = filter q (filter p l).
Proof.
  induction l as [|x l IH]; simpl; [reflexivity|].
  destruct (p x) eqn:Hp, (q x) eqn:Hq; simpl; rewrite ?Hp, ?Hq, IH; reflexivity.
Qed.

Lemma first_occurrences_filter (p : string -> bool) (l : list string) :
  first_occurrences (filter p l) = filter p (first_occurrences l).
Proof.
  induction l as [|x l IH]; simpl; [reflexivity|].
  destruct (p x) eqn:Hp; simpl.
  - now rewrite IH, filter_comm.
  - rewrite IH. symmetry. apply filter_filter_absorb.
    intros y Hy. destruct (String.eqb_spec y x) as [-> | _]; [congruence | reflexivity].
Qed.

Lemma str_in_app (x : string) (l1 l2 : list string) :
  str_in x (l1 ++ l2) = (str_in x l1 || str_in x l2)%bool.
Proof. unfold str_in. apply existsb_app. Qed.

Lemma note_keys_first_occurrences (ks : list string) :
  forall seen,
    fold_left note_key ks seen =
    seen ++ first_occurrences (filter (fun k => negb (str_in k seen)) ks).
Proof.
  induction ks as [|k ks IH]; intros seen; simpl.
  - now rewrite app_nil_r.
  - unfold note_key at 2. destruct (str_in k seen) eqn:Hk; simpl.
    + apply IH.
    + rewrite IH, <- app_assoc. simpl. do 2 f_equal.
      rewrite <- first_occurrences_filter, filter_comm.
      rewrite (filter_ext (fun k0 => negb (str_in k0 (seen ++ [k])))
                 (fun k0 => (negb (String.eqb k0 k) && negb (str_in k0 seen))%bool)).
      * clear. induction ks as [|y ks IH]; simpl; [reflexivity|].
        destruct (negb (str_in y seen)) eqn:H1; simpl;
          destruct (negb (String.eqb y k)) eqn:H2; simpl;
          rewrite ?H1, ?H2; simpl; now rewrite IH.
      * intros y. rewrite str_in_app. unfold str_in at 2. simpl.
        rewrite orb_false_r, negb_orb. apply andb_comm.
Qed.

Lemma subject_keys_loops (subjs : list Subject) :
  forall sa : Index,
    dict_keys
      (fold_left
         (fun sa subject =>
            fold_left
              (fun sa activity =>
                 index_append sa (subj_subject_code subject)
                   (activity_group_code activity) activity)
              (dict_values (subj_activities subject)) sa)
         subjs sa) =
    fold_left note_key
      (flat_map
         (fun subj =>
            map (fun _ => subj_subject_code subj)
              (dict_values (subj_activities subj))) subjs)
      (dict_keys sa).
Proof.
  induction subjs as [|subj subjs IH]; intros sa; simpl; [reflexivity|].
  rewrite IH, fold_left_app. f_equal.
  generalize (dict_values (subj_activities subj)) as acts.
  intros acts. revert sa.
  induction acts as [|a acts IHa]; intros sa; simpl; [reflexivity|].
  rewrite IHa. f_equal. unfold index_append. apply dict_keys_update.
Qed.

Lemma group_keys_loops (s : string) (subjs : list Subject) :
  forall sa : Index,
    dict_keys
      (defaultdict_get
         (fold_left
            (fun sa subject =>
               fold_left
                 (fun sa activity =>
                    index_append sa (subj_subject_code subject)
                      (activity_group_code activity) activity)
                 (dict_values (subj_activities subject)) sa)
            subjs sa) s []) =
    fold_left note_key
      (map activity_group_code
         (flat_map (fun subj => dict_values (subj_activities subj))
            (filter (fun subj => String.eqb (subj_subject_code subj) s) subjs)))
      (dict_keys (defaultdict_get sa s [])).
Proof.
  induction subjs as [|subj subjs IH]; intros sa; simpl; [reflexivity|].
  rewrite IH. clear IH.
  assert (Hinner : forall acts sa,
             dict_keys
               (defaultdict_get
                  (fold_left
                     (fun sa activity =>
                        index_append sa (subj_subject_code subj)
                          (activity_group_code activity) activity)
                     acts sa) s []) =
             if String.eqb (subj_subject_code subj) s
             then fold_left note_key (map activity_group_code acts)
                    (dict_keys (defaultdict_get sa s []))
             else dict_keys (defaultdict_get sa s [])).
  { induction acts as [|a acts IHa]; intros sa'; simpl.
    - now destruct (String.eqb (subj_subject_code subj) s).
    - rewrite IHa. unfold index_append. rewrite defaultdict_get_update.
      destruct (String.eqb_spec (subj_subject_code subj) s) as [<- | _];
        [|reflexivity].
      now rewrite dict_keys_update. }
  rewrite Hinner.
  destruct (String.eqb (subj_subject_code subj) s); simpl; [|reflexivity].
  now rewrite map_app, fold_left_app.
Qed.

Lemma fold_note_key_nil (ks : list string) :
  fold_left note_key ks [] = first_occurrences ks.
Proof.
  rewrite note_keys_first_occurrences. simpl. f_equal.
  induction ks as [|k ks IH]; simpl; [reflexivity | now rewrite IH].
Qed.

(** X3: the subject keys of the index are the subject codes under which
    the catalog lists at least one activity, each once, in the order of
    their first activity; the group keys of a subject are the group codes
    of the activities listed under its code, each once, in the order of
    their first occurrence.  A subject without activities gets no key. *)
Theorem get_subject_activities_key_order (data : Data) :
  dict_keys (get_subject_activities data) =
    first_occurrences (listed_subject_codes data) /\
  forall s,
    dict_keys (defaultdict_get (get_subject_activities data) s []) =
    first_occurrences (listed_group_codes data s).
Proof.
  unfold get_subject_activities, listed_subject_codes, listed_group_codes.
  split.
  - rewrite subject_keys_loops. apply fold_note_key_nil.
  - intros s. rewrite group_keys_loops. apply fold_note_key_nil.
Qed.

(** ** What [time_to_minutes] accepts *)

Lemma split_aux_not_nil (sep : ascii) (s cur : string) :
  PyStr.split_aux sep s cur <> [].
Proof.
  revert cur. induction s as [|c s IH]; intros cur; simpl; [discriminate|].
  destruct (Ascii.eqb c sep); [discriminate | apply IH].
Qed.

Lemma append_assoc (a b c : string) : ((a ++ b) ++ c = a ++ (b ++ c))%string.
Proof. induction a as [|x a IH]; simpl; [reflexivity | now rewrite IH]. Qed.

Lemma append_nil_r (a : string) : (a ++ "" = a)%string.
Proof. induction a as [|x a IH]; simpl; [reflexivity | now rewrite IH]. Qed.

(** Joining the pieces of a split with the separator gives the text back. *)
Lemma split_aux_join (sep : ascii) (s : string) :
  forall cur,
    String.concat (String sep EmptyString) (PyStr.split_aux sep s cur) =
    (cur ++ s)%string.
Proof.
  induction s as [|c s IH]; intros cur; simpl.
  - now rewrite append_nil_r.
  - destruct (Ascii.eqb_spec c sep) as [-> | Hne].
    + specialize (IH EmptyString).
      destruct (PyStr.split_aux sep s EmptyString) as [|p ps] eqn:Hsp.
      * now apply split_aux_not_nil in Hsp.
      * change (String.concat (String sep "") (cur :: p :: ps))
          with (cur ++ String sep "" ++ String.concat (String sep "") (p :: ps))%string.
        rewrite IH. reflexivity.
    + rewrite IH, append_assoc. reflexivity.
Qed.

Lemma split_aux_no_sep (sep : ascii) (h : string) :
  has_char sep h = false ->
  forall rest cur,
    PyStr.split_aux sep (h ++ rest) cur = PyStr.split_aux sep rest (cur ++ h).
Proof.
  induction h as [|c h IH]; simpl; intros Hno rest cur.
  - now rewrite append_nil_r.
  - apply orb_false_iff in Hno as [Hc Hh]. rewrite Hc.
    rewrite IH by exact Hh. now rewrite append_assoc.
Qed.

Lemma split_two (sep : ascii) (h m : string) :
  has_char sep h = false -> has_char sep m = false ->
  PyStr.split sep (h ++ String sep m) = [h; m].
Proof.
  intros Hh Hm. unfold PyStr.split.
  rewrite (split_aux_no_sep sep h Hh). simpl. rewrite Ascii.eqb_refl.
  f_equal.
  rewrite <- (append_nil_r m) at 1.
  rewrite (split_aux_no_sep sep m Hm). simpl. reflexivity.
Qed.

Lemma parse_digits_no_colon (s : string) :
  forall acc n, PyStr.parse_digits s acc = Some n -> has_char ":" s = false.
Proof.
  induction s as [|c s IH]; intros acc n H; simpl in *; [reflexivity|].
  destruct (PyStr.digit_of_ascii c) as [d|] eqn:Hd; [|discriminate].
  simpl in H. rewrite (IH _ _ H), orb_false_r.
  destruct (Ascii.eqb_spec c ":") as [-> | _]; [discriminate Hd | reflexivity].
Qed.

Lemma int_no_colon (s : string) (n : Z) :
  PyStr.int s = Some n -> has_char ":" s = false.
Proof.
  destruct s as [|c s]; [discriminate|]. unfold PyStr.int.
  destruct (Ascii.eqb_spec c "-") as [-> | Hm].
  - destruct s as [|c' s']; [discriminate|].
    destruct (PyStr.parse_digits (String c' s') 0) as [k|] eqn:Hk; [|discriminate].
    intros _. simpl. apply (parse_digits_no_colon _ _ _ Hk).
  - destruct (Ascii.eqb_spec c "+") as [-> | Hp].
    + destruct s as [|c' s']; [discriminate|].
      intros Hk. simpl. apply (parse_digits_no_colon _ _ _ Hk).
    + apply parse_digits_no_colon.
Qed.

Lemma time_to_minutes_fields (h m : string) (hh mm : Z) :
  PyStr.int h = Some hh -> PyStr.int m = Some mm ->
  time_to_minutes (h ++ ":" ++ m) = Some (hh * 60 + mm).
Proof.
  intros Hh Hm. unfold time_to_minutes.
  change (h ++ ":" ++ m)%string with (h ++ String ":" m)%string.
  rewrite split_two by eauto using int_no_colon.
  now rewrite Hh, Hm.
Qed.

Lemma int_two_digits (n : Z) :
  0 <= n < 100 -> PyStr.int (two_digits n) = Some n.
Proof.
  intros Hn.
  assert (Hall : forallb
                   (fun k => match PyStr.int (two_digits (Z.of_nat k)) with
                             | Some r => r =? Z.of_nat k
                             | None => false
                             end) (seq 0 100) = true) by (vm_compute; reflexivity).
  rewrite forallb_forall in Hall.
  specialize (Hall (Z.to_nat n)).
  rewrite Z2Nat.id in Hall by lia.
  assert (Hin : In (Z.to_nat n) (seq 0 100)) by (apply in_seq; lia).
  specialize (Hall Hin).
  destruct (PyStr.int (two_digits n)) as [r|]; [|discriminate].
  apply Z.eqb_eq in Hall. now subst.
Qed.

(** X5: on the text ["HH:MM"] of a time of day, [time_to_minutes] gives
    the minutes since midnight, a number from 0 to 1439. *)
Theorem time_to_minutes_clock (h m : Z) :
  0 <= h < 24 -> 0 <= m < 60 ->
  time_to_minutes (clock_text h m) = Some (h * 60 + m) /\
  0 <= h * 60 + m < 1440.
Proof.
  intros Hh Hm. split; [|lia].
  unfold clock_text. apply time_to_minutes_fields; apply int_two_digits; lia.
Qed.

Lemma time_to_minutes_clock_witness :
  0 <= 9 < 24 /\ 0 <= 30 < 60 /\
  clock_text 9 30 = "09:30"%string /\
  time_to_minutes (clock_text 9 30) = Some (9 * 60 + 30) /\
  0 <= 9 * 60 + 30 < 1440.
Proof.
  split; [lia|]. split; [lia|]. split; [reflexivity|].
  apply (time_to_minutes_clock 9 30); lia.
Defined.

(** ** The time-window score *)

Lemma deviation_score_one (T : Z) :
  (1 - inject_Z T / inject_Z (24 * 60) == 1)%Q <-> T = 0.
Proof.
  change (24 * 60) with 1440.
  unfold Qeq, Qminus, Qplus, Qopp, Qdiv, Qmult, Qinv, inject_Z.
  cbn [Qnum Qden]. lia.
Qed.

(** X6: for an activity whose start time and duration parse, the
    time-window score is at most 1, and it is 1 exactly when both the
    start and the end of the activity lie in the window, bounds
    included. *)
Theorem score_time_restrictions_inside (o : Optimization) (a : Activity)
  (s d : Z) :
  time_to_minutes (start_time a) = Some s ->
  PyStr.int (duration a) = Some d ->
  exists q,
    score_time_restrictions o a = Some q /\
    (q <= 1)%Q /\
    ((q == 1)%Q <->
     tr_start (timeRestrictions o) * 60 <= s <= tr_end (timeRestrictions o) * 60 /\
     tr_start (timeRestrictions o) * 60 <= s + d <= tr_end (timeRestrictions o) * 60).
Proof.
  intros Hs Hd.
  destruct (score_time_restrictions o a) as [q|] eqn:Hq.
  2:{ unfold score_time_restrictions in Hq. rewrite Hs, Hd in Hq. discriminate. }
  exists q. split; [reflexivity|].
  split; [exact (score_time_restrictions_le_1 o a q Hq)|].
  unfold score_time_restrictions in Hq. rewrite Hs, Hd in Hq. cbn [bind] in Hq.
  inversion Hq as [Hq']. rewrite deviation_score_one. lia.
Qed.

Lemma score_time_restrictions_inside_witness :
  time_to_minutes (start_time wed_0900) = Some 540 /\
  PyStr.int (duration wed_0900) = Some 60 /\
  exists q,
    score_time_restrictions (optimization sample_input) wed_0900 = Some q /\
    (q <= 1)%Q /\
    ((q == 1)%Q <->
     tr_start (timeRestrictions (optimization sample_input)) * 60 <= 540
       <= tr_end (timeRestrictions (optimization sample_input)) * 60 /\
     tr_start (timeRestrictions (optimization sample_input)) * 60 <= 540 + 60
       <= tr_end (timeRestrictions (optimization sample_input)) * 60).
Proof.
  split; [reflexivity|]. split; [reflexivity|].
  apply (score_time_restrictions_inside (optimization sample_input) wed_0900 540 60);
    reflexivity.
Defined.

(** ** Clashes *)

Lemma clashes_sym (a b : Activity) : clashes a b = clashes b a.
Proof. unfold clashes. now rewrite check_clash_sym. Qed.

Lemma filter_length_perm {A : Type} (p : A -> bool) (l l' : list A) :
  Permutation l l' ->
  List.length (filter p l) = List.length (filter p l').
Proof.
  induction 1 as [|x l l' _ IH|x y l|l l' l'' _ IH1 _ IH2]; simpl.
  - reflexivity.
  - destruct (p x); simpl; now rewrite IH.
  - destruct (p x), (p y); reflexivity.
  - now rewrite IH1.
Qed.

Lemma clashing_pairs_perm (l l' : list Activity) :
  Permutation l l' -> clashing_pairs l = clashing_pairs l'.
Proof.
  induction 1 as [|x l l' Hp IH|x y l|l l' l'' _ IH1 _ IH2].
  - reflexivity.
  - simpl. now rewrite IH, (filter_length_perm (clashes x) l l' Hp).
  - simpl. rewrite (clashes_sym x y).
    destruct (clashes y x); simpl List.length; lia.
  - now rewrite IH1.
Qed.

(** X7: [check_clash] gives the same answer, or raises alike, whichever
    activity comes first; so for activities that parse the clash score of
    a schedule does not depend on the order of its activities. *)
Theorem clash_score_order_independent :
  (forall a b, check_clash a b = check_clash b a) /\
  (forall l l',
      Permutation l l' ->
      Forall (fun a => activity_ok a = true) l ->
      clash_score l = clash_score l').
Proof.
  split; [exact check_clash_sym|].
  intros l l' Hperm Hok.
  assert (Hok' : Forall (fun a => activity_ok a = true) l').
  { rewrite Forall_forall in *. intros a Ha. apply Hok.
    now apply (Permutation_in _ (Permutation_sym Hperm)). }
  unfold clash_score, len.
  rewrite (count_clashes_spec l Hok), (count_clashes_spec l' Hok').
  now rewrite (Permutation_length Hperm), (clashing_pairs_perm l l' Hperm).
Qed.

Lemma clash_score_order_independent_witness :
  Permutation [wed_0900; wed_0930] [wed_0930; wed_0900] /\
  Forall (fun a => activity_ok a = true) [wed_0900; wed_0930] /\
  clash_score [wed_0900; wed_0930] = clash_score [wed_0930; wed_0900].
Proof.
  assert (Hp : Permutation [wed_0900; wed_0930] [wed_0930; wed_0900])
    by apply perm_swap.
  assert (Hok : Forall (fun a => activity_ok a = true) [wed_0900; wed_0930])
    by (repeat constructor).
  split; [exact Hp|]. split; [exact Hok|].
  exact (proj2 clash_score_order_independent _ _ Hp Hok).
Defined.

(** X8: two activities whose times parse do not clash when one ends no
    later than the other starts, in either order of the arguments (classes
    that follow each other without a gap do not clash); and an activity of
    positive duration clashes with itself. *)
Theorem check_clash_boundaries (a1 a2 : Activity) (s1 d1 s2 d2 : Z) :
  time_to_minutes (start_time a1) = Some s1 ->
  PyStr.int (duration a1) = Some d1 ->
  time_to_minutes (start_time a2) = Some s2 ->
  PyStr.int (duration a2) = Some d2 ->
  (s1 + d1 <= s2 ->
   check_clash a1 a2 = Some false /\ check_clash a2 a1 = Some false) /\
  (0 < d1 -> check_clash a1 a1 = Some true).
Proof.
  intros Hs1 Hd1 Hs2 Hd2. split.
  - intros Hle.
    assert (H : check_clash a1 a2 = Some false).
    { unfold check_clash. rewrite Hs1, Hd1, Hs2, Hd2. cbn [bind].
      destruct (negb _); [reflexivity|].
      apply Z.leb_le in Hle. now rewrite Hle. }
    split; [exact H | now rewrite check_clash_sym].
  - intros Hpos. unfold check_clash. rewrite String.eqb_refl, Hs1, Hd1.
    cbn [bind negb]. f_equal.
    apply negb_true_iff, orb_false_iff. split; apply Z.leb_gt; lia.
Qed.

Lemma check_clash_boundaries_witness :
  time_to_minutes (start_time wed_0900) = Some 540 /\
  540 + 60 <= 600 /\
  (check_clash wed_0900 wed_1000_empty = Some false /\
   check_clash wed_1000_empty wed_0900 = Some false) /\
  check_clash wed_0900 wed_0900 = Some true.
Proof.
  split; [reflexivity|]. split; [lia|].
  destruct (check_clash_boundaries wed_0900 wed_1000_empty 540 60 600 0
              eq_refl eq_refl eq_refl eq_refl) as [H1 H2].
  split; [apply H1; lia | apply H2; lia].
Defined.

(** ** Bounds on the scores *)

Lemma inject_Z_succ (n : nat) :
  (inject_Z (Z.of_nat (S n)) == 1 + inject_Z (Z.of_nat n))%Q.
Proof.
  rewrite Nat2Z.inj_succ. unfold Z.succ. rewrite inject_Z_plus. ring.
Qed.

Lemma sum_at_most_length (xs : list Q) :
  Forall (fun x => x <= 1)%Q xs ->
  (fold_right Qplus 0 xs <= inject_Z (Z.of_nat (List.length xs)))%Q /\
  ((fold_right Qplus 0 xs == inject_Z (Z.of_nat (List.length xs)))%Q <->
   Forall (fun x => x == 1)%Q xs).
Proof.
  induction 1 as [|x xs Hx _ [IHle IHeq]].
  - simpl. split; [apply Qle_refl|]. split; [constructor | reflexivity].
  - cbn [fold_right List.length]. rewrite inject_Z_succ.
    rewrite Forall_cons_iff, <- IHeq. split; [lra|].
    split; [intros H; split; lra | intros [H1 H2]; lra].
Qed.

Lemma mean_at_most_1 (xs : list Q) :
  xs <> [] ->
  Forall (fun x => x <= 1)%Q xs ->
  (mean xs <= 1)%Q /\ ((mean xs == 1)%Q <-> Forall (fun x => x == 1)%Q xs).
Proof.
  intros Hne Hall. destruct (sum_at_most_length xs Hall) as [Hle Heq].
  unfold mean. rewrite <- Heq.
  assert (Hn : (0 < inject_Z (Z.of_nat (List.length xs)))%Q).
  { destruct xs; [contradiction|]. unfold Qlt. simpl. lia. }
  set (S := fold_right Qplus 0%Q xs) in *.
  set (n := inject_Z (Z.of_nat (List.length xs))) in *.
  split.
  - apply Qle_shift_div_r; [exact Hn | lra].
  - split; intros H.
    + rewrite <- (Qmult_div_r S n) by lra. rewrite H. ring.
    + rewrite H. field. lra.
Qed.

Lemma clash_score_one_iff (l : list Activity) :
  Forall (fun a => activity_ok a = true) l ->
  exists cs,
    clash_score l = Some cs /\
    (0 <= cs <= 1)%Q /\
    ((cs == 1)%Q <-> clashing_pairs l = 0).
Proof.
  intros Hok.
  destruct (clash_score_range l Hok) as [cs [Hcs Hrange]].
  destruct (clash_score_refines l Hok) as [cs' [Hcs' Heq]].
  rewrite Hcs in Hcs'. inversion Hcs'; subst cs'.
  exists cs. split; [exact Hcs|]. split; [exact Hrange|].
  rewrite Heq. unfold clash_score_spec.
  pose proof (clashing_pairs_bounds l) as [Hlo Hhi].
  pose proof (total_pairs_pos l) as Hpos.
  destruct (Nat.ltb_spec (List.length l) 2) as [Hlt | Hge].
  - split; [intros _; lia | reflexivity].
  - apply Hpos in Hge.
    set (c := clashing_pairs l) in *. set (t := total_pairs l) in *.
    assert (Ht : (0 < inject_Z t)%Q) by (unfold Qlt; simpl; lia).
    split; intros H.
    + assert (Hz : (inject_Z c == 0)%Q).
      { rewrite <- (Qmult_div_r (inject_Z c) (inject_Z t)) by lra.
        setoid_replace (inject_Z c / inject_Z t)%Q with 0%Q by lra. ring. }
      now apply (inject_Z_injective c 0).
    + rewrite H. change (inject_Z 0) with 0%Q. field. lra.
Qed.

(** X9: for activities that parse, the clash score lies between 0 and 1;
    it is 1 exactly when no two activities of the schedule clash and, for
    two activities or more, 0 exactly when every two of them clash. *)
Theorem clash_score_bounds (l : list Activity) :
  Forall (fun a => activity_ok a = true) l ->
  exists cs,
    clash_score l = Some cs /\
    (0 <= cs <= 1)%Q /\
    ((cs == 1)%Q <-> clashing_pairs l = 0) /\
    ((2 <= List.length l)%nat ->
     ((cs == 0)%Q <-> clashing_pairs l = total_pairs l)).
Proof.
  intros Hok.
  destruct (clash_score_one_iff l Hok) as [cs [Hcs [Hrange Hone]]].
  exists cs. split; [exact Hcs|]. split; [exact Hrange|]. split; [exact Hone|].
  intros Hlen.
  destruct (clash_score_refines l Hok) as [cs' [Hcs' Heq]].
  rewrite Hcs in Hcs'. inversion Hcs'; subst cs'. rewrite Heq.
  unfold clash_score_spec.
  destruct (Nat.ltb_spec (List.length l) 2) as [Hlt | _]; [lia|].
  apply total_pairs_pos in Hlen.
  set (c := clashing_pairs l) in *. set (t := total_pairs l) in *.
  assert (Ht : (0 < inject_Z t)%Q) by (unfold Qlt; simpl; lia).
  split; intros H.
  - assert (Hz : (inject_Z c == inject_Z t)%Q).
    { rewrite <- (Qmult_div_r (inject_Z c) (inject_Z t)) by lra.
      setoid_replace (inject_Z c / inject_Z t)%Q with 1%Q by lra. ring. }
    now apply inject_Z_injective.
  - rewrite H. field. lra.
Qed.

Lemma clash_score_bounds_witness :
  Forall (fun a => activity_ok a = true) [wed_0900; wed_0930] /\
  (2 <= List.length [wed_0900; wed_0930])%nat /\
  exists cs,
    clash_score [wed_0900; wed_0930] = Some cs /\
    (0 <= cs <= 1)%Q /\
    ((cs == 1)%Q <-> clashing_pairs [wed_0900; wed_0930] = 0) /\
    ((cs == 0)%Q <->
     clashing_pairs [wed_0900; wed_0930] = total_pairs [wed_0900; wed_0930]).
Proof.
  assert (Hok : Forall (fun a => activity_ok a = true) [wed_0900; wed_0930])
    by (repeat constructor).
  assert (Hlen : (2 <= List.length [wed_0900; wed_0930])%nat) by (simpl; lia).
  split; [exact Hok|]. split; [exact Hlen|].
  destruct (clash_score_bounds [wed_0900; wed_0930] Hok)
    as [cs [H1 [H2 [H3 H4]]]].
  exists cs. split; [exact H1|]. split; [exact H2|]. split; [exact H3|].
  exact (H4 Hlen).
Defined.

Lemma time_scores_at_most_1 (o : Optimization) (l : list Activity) (ts : list Q) :
  Forall2 (fun a t => score_time_restrictions o a = Some t) l ts ->
  Forall (fun t => t <= 1)%Q ts.
Proof.
  induction 1 as [|a t l ts Ht _ IH]; constructor; [|exact IH].
  exact (score_time_restrictions_le_1 o a t Ht).
Qed.

(** X10: the combined score of a non-empty schedule of activities that
    parse is at most 1, and it is 1 exactly for a perfect schedule: no
    activity on a day to avoid, every time-window score 1, and no clash. *)
Theorem combined_score_at_most_1 (o : Optimization) (l : list Activity) :
  l <> [] ->
  Forall (fun a => activity_ok a = true) l ->
  exists ts s,
    Forall2 (fun a t => score_time_restrictions o a = Some t) l ts /\
    score_activity_combination o l = Some (Fin s) /\
    (s <= 1)%Q /\
    ((s == 1)%Q <->
     Forall (fun a => score_avoid_days o a == 1)%Q l /\
     Forall (fun t => t == 1)%Q ts /\
     clashing_pairs l = 0).
Proof.
  intros Hne Hok.
  destruct (mapM_defined (score_time_restrictions o) l) as [ts [Hts Hall]].
  { eapply Forall_impl; [|exact Hok].
    intros b Hb. now apply score_time_restrictions_defined. }
  destruct (clash_score_one_iff l Hok) as [cs [Hcs [Hrange Hone]]].
  exists ts. eexists. split; [exact Hall|].
  destruct l as [|a l]; [contradiction|].
  unfold score_activity_combination. rewrite Hts, Hcs. cbn [bind].
  split; [reflexivity|].
  rewrite (sum_mean (map (score_avoid_days o) (a :: l)) (a :: l))
    by apply length_map.
  rewrite (sum_mean ts (a :: l)) by (symmetry; exact (Forall2_length Hall)).
  destruct (mean_at_most_1 (map (score_avoid_days o) (a :: l)))
    as [HAle HAeq].
  { discriminate. }
  { apply Forall_map, Forall_forall. intros b _.
    apply score_avoid_days_range. }
  destruct (mean_at_most_1 ts) as [HBle HBeq].
  { inversion Hall; discriminate. }
  { exact (time_scores_at_most_1 o _ _ Hall). }
  rewrite Forall_map in HAeq. rewrite <- HAeq, <- HBeq, <- Hone.
  unfold AVOID_DAYS_WEIGHT, TIME_RESTRICT_WEIGHT, CLASH_WEIGHT.
  set (A := mean (map (score_avoid_days o) (a :: l))) in *.
  set (B := mean ts) in *.
  destruct Hrange as [_ HCle].
  split; [lra|].
  split; [intros H; repeat split; lra | intros [H1 [H2 H3]]; lra].
Qed.


Lemma combined_score_at_most_1_witness :
  [lecture_mon; tutorial_tue_1000] <> [] /\
  Forall (fun a => activity_ok a = true) [lecture_mon; tutorial_tue_1000] /\
  exists ts s,
    Forall2
      (fun a t => score_time_restrictions (optimization sample_input) a = Some t)
      [lecture_mon; tutorial_tue_1000] ts /\
    score_activity_combination (optimization sample_input)
      [lecture_mon; tutorial_tue_1000] = Some (Fin s) /\
    (s <= 1)%Q /\
    ((s == 1)%Q <->
     Forall (fun a => score_avoid_days (optimization sample_input) a == 1)%Q
       [lecture_mon; tutorial_tue_1000] /\
     Forall (fun t => t == 1)%Q ts /\
     clashing_pairs [lecture_mon; tutorial_tue_1000] = 0).
Proof.
  assert (Hne : [lecture_mon; tutorial_tue_1000] <> []) by discriminate.
  assert (Hok : Forall (fun a => activity_ok a = true)
                  [lecture_mon; tutorial_tue_1000]) by (repeat constructor).
  split; [exact Hne|]. split; [exact Hok|].
  exact (combined_score_at_most_1 (optimization sample_input) _ Hne Hok).
Defined.

(** ** When scoring and the search raise *)

Lemma forallb_false_exists {A : Type} (f : A -> bool) (l : list A) :
  forallb f l = false -> exists x, In x l /\ f x = false.
Proof.
  induction l as [|x l IH]; simpl; [discriminate|].
  destruct (f x) eqn:Hx; simpl.
  - intros H. destruct (IH H) as [y [Hy Hfy]]. exists y. auto.
  - intros _. exists x. auto.
Qed.

Lemma score_time_restrictions_raises (o : Optimization) (a : Activity) :
  activity_ok a = false -> score_time_restrictions o a = None.
Proof.
  unfold activity_ok, score_time_restrictions.
  destruct (time_to_minutes (start_time a)); [|reflexivity].
  destruct (PyStr.int (duration a)); [discriminate | reflexivity].
Qed.

Lemma mapM_raises {A B : Type} (f : A -> option B) (l : list A) (x : A) :
  In x l -> f x = None -> mapM f l = None.
Proof.
  induction l as [|y l IH]; simpl; [contradiction|].
  intros [-> | Hin] Hx.
  - now rewrite Hx.
  - destruct (f y); [|reflexivity]. simpl. now rewrite (IH Hin Hx).
Qed.

Lemma score_raises_iff (o : Optimization) (l : list Activity) :
  score_activity_combination o l = None <->
  exists a, In a l /\ activity_ok a = false.
Proof.
  split.
  - intros Hnone. destruct (forallb activity_ok l) eqn:Hall.
    + rewrite forallb_forall in Hall.
      destruct (score_activity_combination_defined o l) as [s Hs].
      { now apply Forall_forall. }
      congruence.
    + now apply forallb_false_exists.
  - intros [a [Hin Hbad]]. destruct l as [|b l]; [contradiction|].
    unfold score_activity_combination.
    now rewrite (mapM_raises _ _ a Hin (score_time_restrictions_raises o a Hbad)).
Qed.

Lemma foldM_visit_raises (o : Optimization) (l : list (list Activity))
  (c : list Activity) :
  In c l -> score_activity_combination o c = None ->
  forall st, foldM (visit o) l st = None.
Proof.
  intros Hin Hc. induction l as [|c' l IH]; [contradiction|].
  intros st. cbn [foldM].
  destruct (visit o st c') as [st1|] eqn:Hv; [|reflexivity].
  cbn [bind]. destruct Hin as [-> | Hin]; [|now apply IH].
  unfold visit, record_candidate in Hv. rewrite Hc in Hv. discriminate.
Qed.

Lemma choices_cover (gs : list (list Activity)) (g : list Activity) (a : Activity) :
  Forall (fun g => g <> []) gs ->
  In g gs -> In a g ->
  exists c, In c (choices gs) /\ In a c.
Proof.
  induction 1 as [|g0 gs Hg0 Hgs IH]; [contradiction|].
  intros [-> | Hin] Ha; simpl.
  - pose proof (choices_not_nil gs Hgs) as Hne.
    destruct (choices gs) as [|c cs] eqn:Hc; [contradiction|].
    exists (a :: c). split; [|now left].
    apply in_flat_map. exists a. split; [exact Ha | now left].
  - destruct (IH Hin Ha) as [c [Hc Hac]].
    destruct g0 as [|b g0]; [contradiction|].
    exists (b :: c). split; [|now right].
    apply in_flat_map. exists b. split; [now left | now apply in_map].
Qed.

Lemma run_search_visits (data : Data) :
  run_search data =
  foldM (visit (optimization data)) (complete_schedules data) initial_state.
Proof.
  unfold run_search. rewrite try_subject_combinations_visits.
  rewrite subjects_by_lookup_all by apply get_subject_activities_wf.
  fold (complete_schedules data).
  now rewrite (map_ext _ (fun c => c) (fun c => eq_refl)), map_id.
Qed.

Lemma catalog_activity_scheduled (data : Data) (a : Activity) :
  In a (catalog_activities data) ->
  exists c, In c (complete_schedules data) /\ In a c.
Proof.
  intros Ha.
  apply (Permutation_in _ (Permutation_sym (index_is_permutation data))) in Ha.
  apply in_concat in Ha as [g [Hg Hag]].
  apply (choices_cover _ g a); auto.
  apply all_groups_not_nil, get_subject_activities_wf.
Qed.

Lemma run_search_raises_iff (data : Data) :
  run_search data = None <-> catalog_ok data = false.
Proof.
  split.
  - intros Hnone. destruct (catalog_ok data) eqn:Hok; [|reflexivity].
    destruct (run_search_spec data Hok) as [st [Hrun _]]. congruence.
  - intros Hbad. unfold catalog_ok in Hbad.
    apply forallb_false_exists in Hbad as [subj [Hsubj Hbad]].
    apply forallb_false_exists in Hbad as [a [Ha Hbad]].
    destruct (catalog_activity_scheduled data a) as [c [Hc Hac]].
    { unfold catalog_activities. apply in_flat_map. eauto. }
    rewrite run_search_visits.
    apply (foldM_visit_raises _ _ c Hc).
    apply score_raises_iff. eauto.
Qed.

(** ** The returned schedule is empty only for an empty catalog *)

Lemma all_groups_nil_iff (data : Data) :
  all_groups (get_subject_activities data) = [] <-> catalog_activities data = [].
Proof.
  pose proof (index_is_permutation data) as Hperm.
  pose proof (all_groups_not_nil _ (get_subject_activities_wf data)) as Hne.
  split; intros H.
  - rewrite H in Hperm. simpl in Hperm. now apply Permutation_nil in Hperm.
  - rewrite H in Hperm. apply Permutation_sym, Permutation_nil in Hperm.
    destruct (all_groups (get_subject_activities data)) as [|g gs];
      [reflexivity|].
    inversion Hne as [|? ? Hg _]; subst.
    simpl in Hperm. apply app_eq_nil in Hperm as [Hg' _]. contradiction.
Qed.

(** X13: on a catalog whose activities parse, the final [best_score] is
    the score of the final [best_combination], and the returned schedule
    is empty (with score negative infinity) only when the catalog has no
    activity at all: with one activity or more the initial empty best is
    always replaced. *)
Theorem best_empty_iff_catalog_empty (data : Data) :
  catalog_ok data = true ->
  exists st,
    run_search data = Some st /\
    best_score st = score_of (optimization data) (best_combination st) /\
    (best_combination st = [] <-> catalog_activities data = []) /\
    (best_score st = NegInf <-> catalog_activities data = []).
Proof.
  intros Hok.
  destruct (run_search_first_maximum data Hok)
    as [st [pre [post [Hrun [_ [Hcs _]]]]]].
  destruct (run_search_spec data Hok) as [st' [Hrun' [_ Hbest]]].
  rewrite Hrun in Hrun'. inversion Hrun'; subst st'. clear Hrun'.
  exists st. split; [exact Hrun|].
  assert (Hin : In (best_combination st) (complete_schedules data))
    by (rewrite Hcs; apply in_elt).
  assert (Hscore : best_score st =
                   score_of (optimization data) (best_combination st)).
  { destruct Hbest as [[Hb [Hs _]] | [pre' [post' [_ [Hs _]]]]];
      [now rewrite Hb, Hs | exact Hs]. }
  assert (Hnil : best_combination st = [] <-> catalog_activities data = []).
  { rewrite <- all_groups_nil_iff.
    unfold complete_schedules in Hin. apply in_choices in Hin.
    split; intros H.
    - rewrite H in Hin. now inversion Hin.
    - rewrite H in Hin. now inversion Hin. }
  split; [exact Hscore|]. split; [exact Hnil|].
  rewrite <- Hnil, Hscore. split.
  - intros H. apply (score_NegInf_nil (optimization data)).
    destruct (score_activity_combination_defined (optimization data)
                (best_combination st)) as [s Hs].
    { now apply complete_schedules_ok with (data := data). }
    rewrite Hs. f_equal. now rewrite <- (score_of_defined _ _ _ Hs).
  - now intros ->.
Qed.

Lemma best_empty_iff_catalog_empty_witness :
  catalog_ok sample_input = true /\
  exists st,
    run_search sample_input = Some st /\
    best_score st = score_of (optimization sample_input) (best_combination st) /\
    (best_combination st = [] <-> catalog_activities sample_input = []) /\
    (best_score st = NegInf <-> catalog_activities sample_input = []).
Proof.
  split; [reflexivity|].
  apply (best_empty_iff_catalog_empty sample_input). reflexivity.
Defined.

(** ** The shared list [subject_selection] *)

Lemma for_each_activity_restores
  (deeper : list Activity -> SearchState -> option (SearchState * list Activity)) :
  (forall sel st r, deeper sel st = Some r -> snd r = sel) ->
  forall activities sel st r,
    for_each_activity deeper activities sel st = Some r -> snd r = sel.
Proof.
  intros Hdeep activities.
  induction activities as [|a activities IH]; intros sel st r; simpl.
  - intros H. now inversion H.
  - destruct (deeper (sel ++ [a]) st) as [r1|] eqn:Hr1; [|discriminate].
    cbn [bind]. rewrite (Hdeep _ _ _ Hr1), list_pop_snoc. cbn [bind].
    apply IH.
Qed.

Lemma for_each_activity_total
  (deeper : list Activity -> SearchState -> option (SearchState * list Activity)) :
  (forall sel st r, deeper sel st = Some r -> snd r = sel) ->
  (forall sel st, deeper sel st <> None) ->
  forall activities sel st, for_each_activity deeper activities sel st <> None.
Proof.
  intros Hdeep Htot activities.
  induction activities as [|a activities IH]; intros sel st; simpl.
  - discriminate.
  - destruct (deeper (sel ++ [a]) st) as [r1|] eqn:Hr1;
      [|now apply Htot in Hr1].
    cbn [bind]. rewrite (Hdeep _ _ _ Hr1), list_pop_snoc. cbn [bind].
    apply IH.
Qed.

(** X14: whatever the continuation does, a call of
    [try_group_combinations] that returns leaves the shared list
    [subject_selection] as it found it (every [append] is undone by its
    [pop]), and [pop] never raises: when the continuation never raises,
    neither does [try_group_combinations]. *)
Theorem try_group_combinations_restores
  (next_subject : list Activity -> SearchState -> option SearchState)
  (current_selection : list Activity) (activity_groups : dict (list Activity))
  (group_codes : list string) :
  (forall sel st r,
      try_group_combinations next_subject current_selection activity_groups
        group_codes sel st = Some r ->
      snd r = sel) /\
  ((forall c st, next_subject c st <> None) ->
   forall sel st,
     try_group_combinations next_subject current_selection activity_groups
       group_codes sel st <> None).
Proof.
  induction group_codes as [|g group_codes [IHr IHt]].
  - split.
    + intros sel st r. simpl.
      destruct (next_subject (current_selection ++ sel) st); [|discriminate].
      intros H. now inversion H.
    + intros Htot sel st. simpl.
      destruct (next_subject (current_selection ++ sel) st) eqn:Hn;
        [discriminate | now apply Htot in Hn].
  - split.
    + intros sel st r. simpl. now apply for_each_activity_restores.
    + intros Htot sel st. simpl.
      apply for_each_activity_total; [exact IHr | now apply IHt].
Qed.

Lemma try_group_combinations_restores_witness :
  (forall c st, (fun (_ : list Activity) (st' : SearchState) => Some st') c st <> None) /\
  try_group_combinations (fun _ st' => Some st') []
    [("Lecture", [wed_0900]); ("Tutorial", [wed_0930; wed_0900_long])]
    ["Lecture"; "Tutorial"] [] initial_state <> None.
Proof.
  assert (H : forall (c : list Activity) (st : SearchState),
             (fun (_ : list Activity) (st' : SearchState) => Some st') c st <> None)
    by (intros c st; discriminate).
  split; [exact H|].
  exact (proj2 (try_group_combinations_restores (fun _ st' => Some st') []
                  [("Lecture", [wed_0900]); ("Tutorial", [wed_0930; wed_0900_long])]
                  ["Lecture"; "Tutorial"]) H [] initial_state).
Defined.

(** ** Days to avoid *)

(** X16: listing more days to avoid never raises the day-avoidance score
    of an activity; in particular the score depends on which days are
    listed, not on their order or repetition. *)
Theorem score_avoid_days_monotone (o1 o2 : Optimization) (a : Activity) :
  (forall d, In d (avoidDays o1) -> In d (avoidDays o2)) ->
  (score_avoid_days o2 a <= score_avoid_days o1 a)%Q.
Proof.
  intros Hincl.
  destruct (score_avoid_days_range o2 a) as [Hlo Hhi].
  destruct (str_in (day_key (day_of_week a)) (map day_key (avoidDays o1)))
    eqn:Hin.
  - assert (H2 : score_avoid_days o2 a = 0%Q).
    { apply score_avoid_days_zero. apply str_in_In in Hin.
      apply in_map_iff in Hin as [d [Hd Hin]].
      apply in_map_iff. exists d. split; [exact Hd | now apply Hincl]. }
    assert (H1 : score_avoid_days o1 a = 0%Q).
    { apply score_avoid_days_zero. now apply str_in_In. }
    rewrite H1, H2. apply Qle_refl.
  - unfold score_avoid_days at 2. rewrite Hin. exact Hhi.
Qed.

Lemma score_avoid_days_monotone_witness :
  (forall d, In d (avoidDays (optimization tie_input)) ->
             In d ("Mon" :: avoidDays (optimization tie_input))) /\
  (score_avoid_days
     {| timeRestrictions := timeRestrictions (optimization tie_input);
        avoidDays := "Mon" :: avoidDays (optimization tie_input) |} lecture_mon <=
   score_avoid_days (optimization tie_input) lecture_mon)%Q.
Proof.
  assert (H : forall d, In d (avoidDays (optimization tie_input)) ->
                        In d ("Mon" :: avoidDays (optimization tie_input)))
    by (intros d Hd; now right).
  split; [exact H|].
  exact (score_avoid_days_monotone (optimization tie_input)
           {| timeRestrictions := timeRestrictions (optimization tie_input);
              avoidDays := "Mon" :: avoidDays (optimization tie_input) |}
           lecture_mon H).
Defined.

(** ** Every complete schedule is scored once *)

Lemma NoDup_concat_parts {A : Type} (ls : list (list A)) :
  NoDup (List.concat ls) -> Forall (@NoDup A) ls.
Proof.
  induction ls as [|l ls IH]; simpl; intros H; constructor.
  - exact (NoDup_app_remove_r _ _ H).
  - apply IH. exact (NoDup_app_remove_l _ _ H).
Qed.

Lemma NoDup_choices (gs : list (list Activity)) :
  Forall (@NoDup Activity) gs -> NoDup (choices gs).
Proof.
  induction 1 as [|g gs Hg _ IH]; simpl.
  - constructor; [intros [] | constructor].
  - induction Hg as [|a g Ha Hg IHg]; simpl; [constructor|].
    apply NoDup_app.
    + apply Finite.Injective_map_NoDup; [|exact IH].
      intros c1 c2 Heq. now inversion Heq.
    + exact IHg.
    + intros c Hc1 Hc2.
      apply in_map_iff in Hc1 as [c1 [<- _]].
      apply in_flat_map in Hc2 as [b [Hb Hc2]].
      apply in_map_iff in Hc2 as [c2 [Heq _]].
      inversion Heq; subst. contradiction.
Qed.

(** X17: on a catalog whose activities parse, the schedules scored by the
    search are, in this order, the selections of one candidate per group
    of the index, the first group varying slowest; when the activities of
    the catalog are pairwise distinct no schedule is scored twice. *)
Theorem search_scores_each_schedule_once (data : Data) :
  catalog_ok data = true ->
  exists st,
    run_search data = Some st /\
    scored st = complete_schedules data /\
    (forall c,
        In c (scored st) <->
        Forall2 (fun g a => In a g) (all_groups (get_subject_activities data)) c) /\
    (NoDup (catalog_activities data) -> NoDup (scored st)).
Proof.
  intros Hok.
  destruct (run_search_spec data Hok) as [st [Hrun [Hlog _]]].
  exists st. split; [exact Hrun|]. split; [exact Hlog|].
  rewrite Hlog. split.
  - intros c. apply in_choices.
  - intros Hnd. apply NoDup_choices, NoDup_concat_parts.
    exact (Permutation_NoDup (Permutation_sym (index_is_permutation data)) Hnd).
Qed.

Lemma search_scores_each_schedule_once_witness :
  catalog_ok sample_input = true /\
  NoDup (catalog_activities sample_input) /\
  exists st,
    run_search sample_input = Some st /\
    scored st = complete_schedules sample_input /\
    (forall c,
        In c (scored st) <->
        Forall2 (fun g a => In a g)
          (all_groups (get_subject_activities sample_input)) c) /\
    NoDup (scored st).
Proof.
  assert (Hnd : NoDup (catalog_activities sample_input)).
  { repeat constructor; simpl; intuition discriminate. }
  split; [reflexivity|]. split; [exact Hnd|].
  destruct (search_scores_each_schedule_once sample_input eq_refl)
    as [st [H1 [H2 [H3 H4]]]].
  exists st. auto.
Defined.

(** * The search against the catalog *)

(** ** The index holds the groups of the catalog *)

Lemma index_lookup_catalog (data : Data) (s g : string) :
  index_lookup (get_subject_activities data) s g = activities_of data s g.
Proof.
  unfold get_subject_activities, activities_of.
  now rewrite index_lookup_outer_loop.
Qed.

Lemma index_subject_keys_catalog (data : Data) :
  dict_keys (get_subject_activities data) = catalog_subject_codes data.
Proof.
  unfold get_subject_activities, catalog_subject_codes, listed_subject_codes.
  rewrite subject_keys_loops. apply fold_note_key_nil.
Qed.

Lemma index_group_codes_catalog (data : Data) (s : string) :
  dict_keys (defaultdict_get (get_subject_activities data) s []) =
  catalog_group_codes data s.
Proof.
  unfold get_subject_activities, catalog_group_codes, listed_group_codes.
  rewrite group_keys_loops. apply fold_note_key_nil.
Qed.

Lemma group_keys_by_lookup (idx : Index) :
  NoDup (dict_keys idx) ->
  group_keys idx =
  flat_map
    (fun s => map (fun g => (s, g)) (dict_keys (defaultdict_get idx s [])))
    (dict_keys idx).
Proof.
  intros Hnd. unfold group_keys, dict_keys.
  rewrite !flat_map_concat_map, map_map. f_equal.
  apply map_ext_in. intros [k groups] Hin. simpl.
  rewrite (defaultdict_get_in idx k groups []) by assumption.
  now rewrite map_map.
Qed.

Lemma index_group_keys_catalog (data : Data) :
  group_keys (get_subject_activities data) = catalog_group_keys data.
Proof.
  rewrite group_keys_by_lookup
    by apply (proj1 (get_subject_activities_wf data)).
  unfold catalog_group_keys. rewrite index_subject_keys_catalog.
  apply flat_map_ext. intros s. now rewrite index_group_codes_catalog.
Qed.

Lemma index_groups_catalog (data : Data) :
  all_groups (get_subject_activities data) = catalog_groups data.
Proof.
  rewrite (all_groups_by_keys _ (get_subject_activities_wf data)).
  rewrite index_group_keys_catalog. unfold catalog_groups.
  apply map_ext. intros [s g]. apply index_lookup_catalog.
Qed.

Lemma complete_schedules_catalog (data : Data) :
  complete_schedules data = catalog_schedules data.
Proof.
  unfold complete_schedules, catalog_schedules.
  now rewrite index_groups_catalog.
Qed.

Lemma catalog_groups_product (data : Data) :
  fold_right Nat.mul 1%nat (map (@List.length _) (catalog_groups data)) =
  catalog_product data.
Proof.
  unfold catalog_groups, catalog_group_keys, catalog_product.
  induction (catalog_subject_codes data) as [|s ss IH]; simpl; [reflexivity|].
  rewrite !map_app, product_app, IH. f_equal.
  now rewrite !map_map.
Qed.

Lemma length_catalog_group_keys (data : Data) :
  List.length (catalog_group_keys data) = catalog_group_count data.
Proof.
  unfold catalog_group_keys, catalog_group_count.
  induction (catalog_subject_codes data) as [|s ss IH]; simpl; [reflexivity|].
  now rewrite length_app, length_map, IH.
Qed.

Lemma catalog_group_keys_NoDup (data : Data) : NoDup (catalog_group_keys data).
Proof.
  rewrite <- index_group_keys_catalog.
  apply group_keys_NoDup, get_subject_activities_wf.
Qed.

Lemma catalog_schedule_candidates (data : Data) (sched : list Activity) :
  In sched (catalog_schedules data) <->
  Forall2 (candidate_of data) (catalog_group_keys data) sched.
Proof.
  unfold catalog_schedules, catalog_groups, candidate_of.
  rewrite in_choices.
  generalize (catalog_group_keys data) as keys. intros keys. revert sched.
  induction keys as [|k keys IH]; intros sched; simpl.
  - split; intros H; inversion H; constructor.
  - split; intros H; inversion H; subst; constructor; auto; now apply IH.
Qed.

(** ** With distinct subject codes, the groups are those of the subjects *)

Lemma in_first_occurrences (l : list string) (x : string) :
  In x (first_occurrences l) <-> In x l.
Proof.
  induction l as [|y l IH]; simpl; [tauto|].
  rewrite filter_In, IH. destruct (String.eqb_spec x y) as [->|Hne]; simpl.
  - tauto.
  - split; [tauto|]. intros [H|H]; [now left | right; now split].
Qed.

Lemma filter_absent (l : list string) (x : string) :
  ~ In x l -> filter (fun y => negb (String.eqb y x)) l = l.
Proof.
  induction l as [|y l IH]; simpl; intros Hx; [reflexivity|].
  destruct (String.eqb_spec y x) as [->|Hne]; simpl.
  - exfalso. apply Hx. now left.
  - rewrite IH; [reflexivity|]. intros H. apply Hx. now right.
Qed.

Lemma first_occurrences_app (l1 l2 : list string) :
  (forall x, In x l1 -> ~ In x l2) ->
  first_occurrences (l1 ++ l2) = first_occurrences l1 ++ first_occurrences l2.
Proof.
  induction l1 as [|x l1 IH]; simpl; intros Hdis; [reflexivity|].
  rewrite IH by (intros y Hy; apply Hdis; now right).
  rewrite filter_app. f_equal. f_equal.
  apply filter_absent. rewrite in_first_occurrences. apply Hdis. now left.
Qed.

Lemma first_occurrences_constant {A : Type} (s : string) (l : list A) :
  first_occurrences (map (fun _ => s) l) =
  match l with [] => [] | _ => [s] end.
Proof.
  induction l as [|a l IH]; simpl; [reflexivity|].
  rewrite IH. destruct l; simpl; [reflexivity|].
  now rewrite String.eqb_refl.
Qed.

Lemma filter_other_code (l : list Subject) (s : string) :
  ~ In s (map subj_subject_code l) ->
  filter (fun subj => String.eqb (subj_subject_code subj) s) l = [].
Proof.
  induction l as [|subj l IH]; simpl; intros Hs; [reflexivity|].
  destruct (String.eqb_spec (subj_subject_code subj) s) as [Heq|Hne].
  - exfalso. apply Hs. now left.
  - apply IH. intros H. apply Hs. now right.
Qed.

Lemma listed_subject_codes_in (l : list Subject) (o : Optimization) (s : string) :
  In s (listed_subject_codes {| subjects := l; optimization := o |}) ->
  In s (map subj_subject_code l).
Proof.
  unfold listed_subject_codes. simpl. intros H.
  apply in_flat_map in H as [subj [Hsubj H]].
  apply in_map_iff in H as [a [<- _]]. now apply in_map.
Qed.

Lemma catalog_group_keys_by_subject (l : list Subject) (o : Optimization) :
  NoDup (map subj_subject_code l) ->
  catalog_group_keys {| subjects := l; optimization := o |} =
  subjects_group_keys {| subjects := l; optimization := o |} /\
  catalog_groups {| subjects := l; optimization := o |} =
  flat_map subject_groups l.
Proof.
  induction l as [|subj l IH]; intros Hnd; [split; reflexivity|].
  inversion Hnd as [|s0 codes Hnotin Hnd']; subst.
  destruct (IH Hnd') as [IHk IHg]. clear IH.
  assert (Hcodes :
            catalog_subject_codes {| subjects := subj :: l; optimization := o |} =
            match dict_values (subj_activities subj) with
            | [] => []
            | _ => [subj_subject_code subj]
            end ++ catalog_subject_codes {| subjects := l; optimization := o |}).
  { unfold catalog_subject_codes, listed_subject_codes. simpl.
    rewrite first_occurrences_app.
    - now rewrite first_occurrences_constant.
    - intros x Hx Hx'. apply in_map_iff in Hx as [a [<- _]].
      apply Hnotin. exact (listed_subject_codes_in l o _ Hx'). }
  assert (Hhere : forall x,
            filter (fun s => String.eqb (subj_subject_code s) x) (subj :: l) =
            if String.eqb (subj_subject_code subj) x then [subj]
            else filter (fun s => String.eqb (subj_subject_code s) x) l).
  { intros x. cbn [filter].
    destruct (String.eqb (subj_subject_code subj) x) eqn:E; [|reflexivity].
    apply String.eqb_eq in E. subst x.
    now rewrite (filter_other_code l _ Hnotin). }
  assert (Hown : catalog_group_codes {| subjects := subj :: l; optimization := o |}
                   (subj_subject_code subj) = subject_group_codes subj).
  { unfold catalog_group_codes, listed_group_codes, subject_group_codes.
    cbn [subjects]. rewrite Hhere, String.eqb_refl. simpl. now rewrite app_nil_r. }
  assert (Hown_act : forall g,
            activities_of {| subjects := subj :: l; optimization := o |}
              (subj_subject_code subj) g = subject_candidates subj g).
  { intros g. unfold activities_of, subject_candidates.
    cbn [subjects]. rewrite Hhere, String.eqb_refl. simpl. now rewrite app_nil_r. }
  assert (Hrest : forall s,
            In s (catalog_subject_codes {| subjects := l; optimization := o |}) ->
            catalog_group_codes {| subjects := subj :: l; optimization := o |} s =
            catalog_group_codes {| subjects := l; optimization := o |} s /\
            forall g,
              activities_of {| subjects := subj :: l; optimization := o |} s g =
              activities_of {| subjects := l; optimization := o |} s g).
  { intros s Hs. unfold catalog_subject_codes in Hs.
    apply in_first_occurrences, listed_subject_codes_in in Hs.
    assert (Hne : String.eqb (subj_subject_code subj) s = false).
    { apply String.eqb_neq. intros Heq. rewrite Heq in Hnotin. contradiction. }
    unfold catalog_group_codes, listed_group_codes, activities_of.
    cbn [subjects]. rewrite Hhere, Hne. split; reflexivity. }
  assert (Hkeys :
            catalog_group_keys {| subjects := subj :: l; optimization := o |} =
            map (fun g => (subj_subject_code subj, g)) (subject_group_codes subj) ++
            catalog_group_keys {| subjects := l; optimization := o |}).
  { unfold catalog_group_keys at 1. rewrite Hcodes, flat_map_app. f_equal.
    - destruct (dict_values (subj_activities subj)) eqn:Hvals.
      + unfold subject_group_codes. now rewrite Hvals.
      + simpl. now rewrite app_nil_r, Hown.
    - unfold catalog_group_keys. rewrite !flat_map_concat_map.
      apply f_equal. apply map_ext_in.
      intros s Hs. now rewrite (proj1 (Hrest s Hs)). }
  split.
  - rewrite Hkeys, IHk. reflexivity.
  - unfold catalog_groups at 1. rewrite Hkeys, map_app, map_map. simpl.
    f_equal.
    + unfold subject_groups. apply map_ext. intros g. apply Hown_act.
    + rewrite <- IHg. unfold catalog_groups. apply map_ext_in.
      intros [s g] Hin. simpl. unfold catalog_group_keys in Hin.
      apply in_flat_map in Hin as [s' [Hs' Hin]].
      apply in_map_iff in Hin as [g' [Heq _]]. inversion Heq; subst.
      apply (proj2 (Hrest s Hs')).
Qed.

Lemma catalog_product_by_subject (data : Data) :
  distinct_subject_codes data -> catalog_product data = subjects_product data.
Proof.
  destruct data as [l o]. unfold distinct_subject_codes. simpl. intros Hnd.
  rewrite <- catalog_groups_product.
  rewrite (proj2 (catalog_group_keys_by_subject l o Hnd)).
  unfold subjects_product. simpl. clear Hnd.
  induction l as [|subj l IH]; simpl; [reflexivity|].
  rewrite map_app, product_app, IH. f_equal.
  unfold subject_product, subject_groups. now rewrite map_map.
Qed.

Lemma catalog_group_count_by_subject (data : Data) :
  distinct_subject_codes data ->
  catalog_group_count data = subjects_group_count data.
Proof.
  destruct data as [l o]. unfold distinct_subject_codes. simpl. intros Hnd.
  rewrite <- length_catalog_group_keys.
  rewrite (proj1 (catalog_group_keys_by_subject l o Hnd)).
  unfold subjects_group_keys, subjects_group_count. simpl. clear Hnd.
  induction l as [|subj l IH]; simpl; [reflexivity|].
  now rewrite length_app, length_map, IH.
Qed.

Lemma catalog_group_keys_subjects (data : Data) :
  distinct_subject_codes data ->
  catalog_group_keys data = subjects_group_keys data.
Proof.
  destruct data as [l o]. intros Hnd.
  exact (proj1 (catalog_group_keys_by_subject l o Hnd)).
Qed.

(** ** The claims about the search *)

(** C2: on a catalog whose activities parse, the number of calls of
    [score_activity_combination] made by the search is the product, over
    the subjects of the catalog and over the groups of each subject, of
    the number of candidate activities of the group, subjects and groups
    being read off the catalog.  Subjects are told apart by their code;
    when no two subjects of the catalog share a code, this is the product
    taken subject by subject. *)
Theorem scored_count_is_catalog_product (data : Data) :
  catalog_ok data = true ->
  exists st,
    run_search data = Some st /\
    List.length (scored st) = catalog_product data /\
    (distinct_subject_codes data ->
     List.length (scored st) = subjects_product data).
Proof.
  intros Hok.
  destruct (run_search_spec data Hok) as [st [Hrun [Hlog _]]].
  exists st. split; [exact Hrun|].
  assert (Hlen : List.length (scored st) = catalog_product data).
  { rewrite Hlog, complete_schedules_catalog. unfold catalog_schedules.
    now rewrite length_choices, catalog_groups_product. }
  split; [exact Hlen|].
  intros Hnd. rewrite Hlen. now apply catalog_product_by_subject.
Qed.

Lemma scored_count_is_catalog_product_witness :
  catalog_ok sample_input = true /\
  catalog_product sample_input = 2%nat /\
  subjects_product sample_input = 2%nat /\
  exists st,
    run_search sample_input = Some st /\
    List.length (scored st) = catalog_product sample_input /\
    (distinct_subject_codes sample_input ->
     List.length (scored st) = subjects_product sample_input).
Proof.
  split; [reflexivity|]. split; [reflexivity|]. split; [reflexivity|].
  apply (scored_count_is_catalog_product sample_input). reflexivity.
Defined.

(** C7: on a catalog whose activities parse, every schedule scored by the
    search, the returned one included, pairs off with the (subject code,
    group code) pairs of the catalog, which are pairwise distinct: it has
    one activity per pair, a candidate listed in the catalog under that
    subject code with that group code, and as many activities as the
    catalog has groups; when every activity carries the code of its
    subject, the identities its activities declare are those pairs.  When
    no two subjects of the catalog share a code, the pairs are those of
    the subjects taken one by one, and their number is the total number
    of groups across the subjects. *)
Theorem scored_schedules_one_per_catalog_group (data : Data) :
  catalog_ok data = true ->
  exists st,
    run_search data = Some st /\
    TimetableOptimizer.optimize_timetable data = Some (best_combination st) /\
    In (best_combination st) (scored st) /\
    NoDup (catalog_group_keys data) /\
    (forall sched, In sched (scored st) ->
       List.length sched = catalog_group_count data /\
       Forall2 (candidate_of data) (catalog_group_keys data) sched /\
       Forall2 (fun key a => activity_group_code a = snd key)
         (catalog_group_keys data) sched /\
       (subject_codes_consistent data = true ->
        map identity sched = catalog_group_keys data /\
        NoDup (map identity sched))) /\
    (distinct_subject_codes data ->
     catalog_group_keys data = subjects_group_keys data /\
     catalog_group_count data = subjects_group_count data).
Proof.
  intros Hok.
  destruct (run_search_first_maximum data Hok)
    as [st [pre [post [Hrun [Hlog [Hcs _]]]]]].
  pose proof (catalog_group_keys_NoDup data) as Hnd.
  exists st. split; [exact Hrun|].
  split; [unfold TimetableOptimizer.optimize_timetable; now rewrite Hrun|].
  split; [rewrite Hlog, Hcs; apply in_elt|].
  split; [exact Hnd|].
  split.
  2: { intros Hdis. split.
       - now apply catalog_group_keys_subjects.
       - now apply catalog_group_count_by_subject. }
  intros sched Hin. rewrite Hlog, complete_schedules_catalog in Hin.
  apply catalog_schedule_candidates in Hin.
  assert (Hgroup : Forall2 (fun key a => activity_group_code a = snd key)
                     (catalog_group_keys data) sched).
  { eapply Forall2_impl; [|exact Hin].
    intros [s g] a Ha. unfold candidate_of, activities_of in Ha. simpl in *.
    apply filter_In in Ha as [_ Ha]. now apply String.eqb_eq. }
  split; [|split; [exact Hin | split; [exact Hgroup|]]].
  - rewrite <- (Forall2_length Hin). apply length_catalog_group_keys.
  - intros Hcons.
    assert (Hid : map identity sched = catalog_group_keys data).
    { apply Forall2_map_eq. eapply Forall2_impl; [|exact Hin].
      intros [s g] a Ha. unfold candidate_of in Ha. simpl in Ha.
      rewrite <- index_lookup_catalog in Ha. unfold index_lookup in Ha.
      unfold identity. f_equal.
      - exact (index_all_lookup _ _ s g a (subject_code_index data Hcons) Ha).
      - exact (index_all_lookup _ _ s g a (group_code_index data) Ha). }
    split; [exact Hid | now rewrite Hid].
Qed.

Lemma scored_schedules_one_per_catalog_group_witness :
  catalog_ok sample_input = true /\
  subject_codes_consistent sample_input = true /\
  catalog_group_count sample_input = 4%nat /\
  subjects_group_count sample_input = 4%nat /\
  exists st,
    run_search sample_input = Some st /\
    TimetableOptimizer.optimize_timetable sample_input =
      Some (best_combination st) /\
    In (best_combination st) (scored st) /\
    NoDup (catalog_group_keys sample_input) /\
    (forall sched, In sched (scored st) ->
       List.length sched = catalog_group_count sample_input /\
       Forall2 (candidate_of sample_input) (catalog_group_keys sample_input) sched /\
       Forall2 (fun key a => activity_group_code a = snd key)
         (catalog_group_keys sample_input) sched /\
       (subject_codes_consistent sample_input = true ->
        map identity sched = catalog_group_keys sample_input /\
        NoDup (map identity sched))) /\
    (distinct_subject_codes sample_input ->
     catalog_group_keys sample_input = subjects_group_keys sample_input /\
     catalog_group_count sample_input = subjects_group_count sample_input).
Proof.
  split; [reflexivity|]. split; [reflexivity|]. split; [reflexivity|].
  split; [reflexivity|].
  apply (scored_schedules_one_per_catalog_group sample_input). reflexivity.
Defined.

(** ** The search over any floats visits the schedules of the catalog *)

Section AnyFloatFacts.

Variable float : Type.
Variable score : list Activity -> option float.
Variable gt : float -> float -> bool.
Variable neg_inf : float.

Local Abbreviation State := (AnyFloat.SearchState float).
Local Abbreviation visit := (AnyFloat.visit float score gt).

Lemma any_for_each_activity_visits
  (deeper : list Activity -> State -> option (State * list Activity))
  (F : list Activity -> list (list Activity)) :
  (forall sel st, deeper sel st = (s <- foldM visit (F sel) st ;; Some (s, sel))) ->
  forall activities sel st,
    AnyFloat.for_each_activity float deeper activities sel st =
    (s <- foldM visit (flat_map (fun a => F (sel ++ [a])) activities) st ;;
     Some (s, sel)).
Proof.
  intros Hdeep activities.
  induction activities as [|a activities IH]; intros sel st; simpl.
  - reflexivity.
  - rewrite Hdeep, foldM_app.
    destruct (foldM visit (F (sel ++ [a])) st) as [s1|]; simpl; [|reflexivity].
    rewrite list_pop_snoc. simpl. apply IH.
Qed.

Lemma any_try_group_combinations_visits
  (next_subject : list Activity -> State -> option State)
  (R : list (list Activity)) (cur : list Activity)
  (activity_groups : dict (list Activity)) :
  (forall c st, next_subject c st = foldM visit (map (app c) R) st) ->
  forall group_codes sel st,
    AnyFloat.try_group_combinations float next_subject cur activity_groups
      group_codes sel st =
    (s <- foldM visit
            (map (fun c => cur ++ sel ++ c)
               (extend (groups_by_lookup activity_groups group_codes) R)) st ;;
     Some (s, sel)).
Proof.
  intros Hnext group_codes.
  induction group_codes as [|g group_codes IH]; intros sel st; simpl.
  - rewrite Hnext. f_equal. f_equal.
    apply map_ext. intros c. now rewrite app_assoc.
  - rewrite (any_for_each_activity_visits _
               (fun sel' =>
                  map (fun c => cur ++ sel' ++ c)
                    (extend (groups_by_lookup activity_groups group_codes) R))).
    + now rewrite map_prefix_flat_map.
    + intros sel' st'. apply IH.
Qed.

Lemma any_try_subject_combinations_visits (idx : Index) :
  forall subject_codes cur st,
    AnyFloat.try_subject_combinations float score gt idx subject_codes cur st =
    foldM visit (map (app cur) (choices (subjects_by_lookup idx subject_codes))) st.
Proof.
  intros subject_codes.
  induction subject_codes as [|code subject_codes IH]; intros cur st.
  - simpl. rewrite app_nil_r. unfold AnyFloat.visit. now rewrite bind_some_r.
  - cbn [AnyFloat.try_subject_combinations subjects_by_lookup flat_map].
    rewrite (any_try_group_combinations_visits _
               (choices (subjects_by_lookup idx subject_codes))).
    + rewrite bind_assoc. cbn [bind fst]. rewrite bind_some_r.
      fold (subjects_by_lookup idx subject_codes).
      now rewrite extend_choices.
    + intros c st'. apply IH.
Qed.

Lemma any_run_search_visits (data : Data) :
  AnyFloat.run_search float score gt neg_inf data =
  foldM visit (catalog_schedules data) (AnyFloat.initial_state float neg_inf).
Proof.
  unfold AnyFloat.run_search. rewrite any_try_subject_combinations_visits.
  rewrite subjects_by_lookup_all by apply get_subject_activities_wf.
  fold (complete_schedules data). rewrite complete_schedules_catalog.
  now rewrite (map_ext _ (fun c => c) (fun c => eq_refl)), map_id.
Qed.

(** What a run over the candidates [l] leaves in the state, when [>] is
    transitive and so is its negation on the scores met. *)

Variable comparable : float -> Prop.

Hypothesis gt_trans :
  forall a b c, comparable a -> comparable b -> comparable c ->
    gt a b = true -> gt b c = true -> gt a c = true.

Hypothesis not_gt_trans :
  forall a b c, comparable a -> comparable b -> comparable c ->
    gt a b = false -> gt b c = false -> gt a c = false.

Lemma any_fold_first_best (l : list (list Activity)) :
  (forall c, In c l -> exists s, score c = Some s /\ comparable s) ->
  forall st : State,
    comparable (AnyFloat.best_score st) ->
    exists st',
      foldM visit l st = Some st' /\
      comparable (AnyFloat.best_score st') /\
      ((AnyFloat.best_combination st' = AnyFloat.best_combination st /\
        AnyFloat.best_score st' = AnyFloat.best_score st /\
        forall c, In c l ->
          exists s, score c = Some s /\ gt s (AnyFloat.best_score st) = false) \/
       (exists pre post,
           l = pre ++ AnyFloat.best_combination st' :: post /\
           score (AnyFloat.best_combination st') = Some (AnyFloat.best_score st') /\
           gt (AnyFloat.best_score st') (AnyFloat.best_score st) = true /\
           (forall c, In c pre ->
              exists s, score c = Some s /\ gt (AnyFloat.best_score st') s = true) /\
           (forall c, In c post ->
              exists s, score c = Some s /\ gt s (AnyFloat.best_score st') = false))).
Proof.
  induction l as [|c l IH]; intros Hdef st Hst.
  - exists st. simpl. split; [reflexivity|]. split; [exact Hst|].
    left. repeat split. intros c [].
  - destruct (Hdef c (or_introl eq_refl)) as [sc [Hsc Hcomp]].
    assert (Hdef' : forall c', In c' l ->
                     exists s, score c' = Some s /\ comparable s)
      by (intros c' Hc'; apply Hdef; now right).
    cbn [foldM]. unfold AnyFloat.visit at 1. unfold AnyFloat.record_candidate.
    rewrite Hsc. cbn [bind].
    destruct (gt sc (AnyFloat.best_score st)) eqn:Hgt; cbn [bind].
    + destruct (IH Hdef'
                  {| AnyFloat.best_combination := c;
                     AnyFloat.best_score := sc;
                     AnyFloat.scored := AnyFloat.scored st ++ [c] |} Hcomp)
        as [st' [Hrun [Hst' Hbest]]].
      exists st'. cbn [AnyFloat.best_combination AnyFloat.best_score] in *.
      split; [exact Hrun|]. split; [exact Hst'|]. right.
      destruct Hbest
        as [[Hb [Hs Hall]] | [pre [post [Hl [Hs [Hlt [Hpre Hpost]]]]]]].
      * exists [], l. rewrite Hb, Hs.
        split; [reflexivity|]. split; [exact Hsc|]. split; [exact Hgt|].
        split; [intros c' []|exact Hall].
      * exists (c :: pre), post. rewrite Hl.
        split; [reflexivity|]. split; [exact Hs|].
        split; [exact (gt_trans _ _ _ Hst' Hcomp Hst Hlt Hgt)|].
        split; [|exact Hpost].
        intros c' [<- | Hc']; [|now apply Hpre].
        exists sc. split; [exact Hsc | exact Hlt].
    + destruct (IH Hdef'
                  {| AnyFloat.best_combination := AnyFloat.best_combination st;
                     AnyFloat.best_score := AnyFloat.best_score st;
                     AnyFloat.scored := AnyFloat.scored st ++ [c] |} Hst)
        as [st' [Hrun [Hst' Hbest]]].
      exists st'. cbn [AnyFloat.best_combination AnyFloat.best_score] in *.
      split; [exact Hrun|]. split; [exact Hst'|].
      destruct Hbest
        as [[Hb [Hs Hall]] | [pre [post [Hl [Hs [Hlt [Hpre Hpost]]]]]]].
      * left. split; [exact Hb|]. split; [exact Hs|].
        intros c' [<- | Hc']; [|now apply Hall].
        exists sc. split; [exact Hsc | exact Hgt].
      * right. exists (c :: pre), post. rewrite Hl.
        split; [reflexivity|]. split; [exact Hs|]. split; [exact Hlt|].
        split; [|exact Hpost].
        intros c' [<- | Hc']; [|now apply Hpre].
        exists sc. split; [exact Hsc|].
        destruct (gt (AnyFloat.best_score st') sc) eqn:Hcmp; [reflexivity|].
        rewrite (not_gt_trans _ _ _ Hst' Hcomp Hst Hcmp Hgt) in Hlt.
        discriminate.
Qed.

End AnyFloatFacts.

Lemma catalog_schedules_nil (data : Data) :
  In [] (catalog_schedules data) -> catalog_schedules data = [[]].
Proof.
  unfold catalog_schedules. intros Hin. apply in_choices in Hin.
  inversion Hin as [Hnil|]. reflexivity.
Qed.

Lemma catalog_schedules_not_nil (data : Data) : catalog_schedules data <> [].
Proof.
  rewrite <- complete_schedules_catalog.
  apply choices_not_nil, all_groups_not_nil, get_subject_activities_wf.
Qed.

(** C1: whatever computes and compares the scores, provided that every
    complete schedule of the catalog gets a score, that a non-empty
    schedule scores more than the initial negative infinity, and that on
    these scores [>] is transitive and so is its negation (as for IEEE
    doubles other than NaN): [optimize_timetable] returns a complete
    schedule of the catalog; every complete schedule enumerated before it
    (subjects, groups and activities in catalog order) scores strictly
    less, and no complete schedule enumerated after it scores more.  So
    the returned schedule has the greatest score and, among the schedules
    with that score, is the first one enumerated. *)
Theorem search_returns_first_maximum (float : Type)
  (score : list Activity -> option float) (gt : float -> float -> bool)
  (neg_inf : float) (comparable : float -> Prop) (data : Data) :
  (forall a b c, comparable a -> comparable b -> comparable c ->
     gt a b = true -> gt b c = true -> gt a c = true) ->
  (forall a b c, comparable a -> comparable b -> comparable c ->
     gt a b = false -> gt b c = false -> gt a c = false) ->
  comparable neg_inf ->
  (forall c, In c (catalog_schedules data) ->
     exists s, score c = Some s /\ comparable s /\
               (c <> [] -> gt s neg_inf = true)) ->
  exists best s_best pre post,
    AnyFloat.optimize_timetable float score gt neg_inf data = Some best /\
    catalog_schedules data = pre ++ best :: post /\
    score best = Some s_best /\
    (forall c, In c pre -> exists s, score c = Some s /\ gt s_best s = true) /\
    (forall c, In c post -> exists s, score c = Some s /\ gt s s_best = false).
Proof.
  intros Htrans Hntrans Hinf Hscores.
  destruct (any_fold_first_best float score gt comparable Htrans Hntrans
              (catalog_schedules data))
    with (st := AnyFloat.initial_state float neg_inf)
    as [st [Hrun [_ Hbest]]].
  { intros c Hc. destruct (Hscores c Hc) as [s [Hs [Hcomp _]]]. eauto. }
  { exact Hinf. }
  unfold AnyFloat.optimize_timetable. rewrite any_run_search_visits, Hrun.
  cbn [bind].
  destruct Hbest as [[Hb [_ Hall]] | [pre [post [Hl [Hs [_ [Hpre Hpost]]]]]]].
  - cbn [AnyFloat.initial_state AnyFloat.best_combination AnyFloat.best_score]
      in Hb, Hall.
    assert (Hnil : forall c, In c (catalog_schedules data) -> c = []).
    { intros c Hc. destruct (Hall c Hc) as [s [Hs Hgt]].
      destruct (Hscores c Hc) as [s' [Hs' [_ Hbeats]]].
      rewrite Hs in Hs'. inversion Hs'; subst s'.
      destruct c as [|a c]; [reflexivity|].
      rewrite Hbeats in Hgt by discriminate. discriminate. }
    pose proof (catalog_schedules_not_nil data) as Hne.
    destruct (catalog_schedules data) as [|c0 rest] eqn:Hcs; [contradiction|].
    pose proof (Hnil c0 (or_introl eq_refl)) as Hc0. subst c0.
    assert (Hone : [] :: rest = [[]]).
    { rewrite <- Hcs. apply catalog_schedules_nil. rewrite Hcs. now left. }
    inversion Hone; subst rest.
    destruct (Hscores [] (or_introl eq_refl)) as [s0 [Hs0 _]].
    exists [], s0, [], []. rewrite Hb.
    split; [reflexivity|]. split; [reflexivity|]. split; [exact Hs0|].
    split; intros c [].
  - exists (AnyFloat.best_combination st), (AnyFloat.best_score st), pre, post.
    auto.
Qed.

(** The scorer and the comparison of this file meet the conditions. *)

Lemma pf_gtb_trans (a b c : pyfloat) :
  pf_gtb a b = true -> pf_gtb b c = true -> pf_gtb a c = true.
Proof.
  destruct a as [|x], b as [|y], c as [|z]; simpl; try congruence.
  destruct (Qcompare x y) eqn:Hxy; try discriminate.
  destruct (Qcompare y z) eqn:Hyz; try discriminate.
  intros _ _. apply Qgt_alt in Hxy, Hyz.
  assert (H : (z < x)%Q) by (eapply Qlt_trans; eassumption).
  apply Qgt_alt in H. now rewrite H.
Qed.

Lemma pf_gtb_not_trans (a b c : pyfloat) :
  pf_gtb a b = false -> pf_gtb b c = false -> pf_gtb a c = false.
Proof.
  intros Hab Hbc. apply pf_gtb_false in Hab, Hbc.
  destruct a as [|x], b as [|y], c as [|z]; simpl in *; try tauto.
  assert (H : (x <= z)%Q) by (eapply Qle_trans; eassumption).
  apply Qle_alt in H.
  destruct (Qcompare x z) eqn:E; [reflexivity | reflexivity | now elim H].
Qed.

Lemma catalog_schedules_scored (data : Data) (c : list Activity) :
  catalog_ok data = true ->
  In c (catalog_schedules data) ->
  exists s,
    score_activity_combination (optimization data) c = Some s /\ True /\
    (c <> [] -> pf_gtb s NegInf = true).
Proof.
  intros Hok Hc. rewrite <- complete_schedules_catalog in Hc.
  destruct (score_activity_combination_defined (optimization data) c)
    as [s Hs]; [now apply complete_schedules_ok with (data := data)|].
  exists s. split; [exact Hs|]. split; [exact I|].
  intros Hne. destruct s as [|q]; [|reflexivity].
  now apply score_NegInf_nil in Hs.
Qed.

Lemma visit_as_any_float (o : Optimization) (st : SearchState)
  (c : list Activity) :
  AnyFloat.visit pyfloat (score_activity_combination o) pf_gtb
    (as_any_float st) c =
  option_map as_any_float (visit o st c).
Proof.
  unfold AnyFloat.visit, AnyFloat.record_candidate, visit, record_candidate.
  destruct (score_activity_combination o c) as [s|]; [|reflexivity].
  cbn [bind as_any_float AnyFloat.best_score AnyFloat.scored].
  now destruct (pf_gtb s (best_score st)).
Qed.

Lemma foldM_as_any_float (o : Optimization) (l : list (list Activity)) :
  forall st,
    foldM (AnyFloat.visit pyfloat (score_activity_combination o) pf_gtb) l
      (as_any_float st) =
    option_map as_any_float (foldM (visit o) l st).
Proof.
  induction l as [|c l IH]; intros st; simpl; [reflexivity|].
  rewrite visit_as_any_float.
  destruct (visit o st c) as [st1|]; simpl; [apply IH | reflexivity].
Qed.

(** With the scorer and the comparison of this file, the search over any
    floats is the search of [TimetableOptimizer]. *)
Lemma optimize_timetable_as_any_float (data : Data) :
  AnyFloat.optimize_timetable pyfloat
    (score_activity_combination (optimization data)) pf_gtb NegInf data =
  TimetableOptimizer.optimize_timetable data.
Proof.
  unfold AnyFloat.optimize_timetable, TimetableOptimizer.optimize_timetable.
  rewrite any_run_search_visits, run_search_visits, complete_schedules_catalog.
  change (AnyFloat.initial_state pyfloat NegInf) with (as_any_float initial_state).
  rewrite foldM_as_any_float.
  now destruct (foldM (visit (optimization data)) (catalog_schedules data)
                  initial_state).
Qed.

(** ** The search with binary64 scores *)

Lemma binary64_gt_rank (a b : Binary64.float) :
  Binary64.is_nan a = false -> Binary64.is_nan b = false ->
  (Binary64.gt a b = true <-> Binary64.lt3 (Binary64.rank b) (Binary64.rank a)).
Proof.
  unfold Binary64.gt, SpecFloat.SFltb, SpecFloat.SFcompare.
  destruct a as [sa|sa| |sa ma ea], b as [sb|sb| |sb mb eb];
    try discriminate; intros _ _;
    try destruct sa; try destruct sb; cbn [Binary64.rank Binary64.lt3];
    try (split; [discriminate | lia]);
    try (split; [lia | reflexivity]);
    change (Pos.compare_cont Eq mb ma) with (Pos.compare mb ma);
    destruct (Z.compare_spec eb ea); destruct (Pos.compare_spec mb ma);
    cbn [CompOpp]; split; try discriminate; try reflexivity; lia.
Qed.

Lemma binary64_gt_trans (a b c : Binary64.float) :
  Binary64.is_nan a = false -> Binary64.is_nan b = false ->
  Binary64.is_nan c = false ->
  Binary64.gt a b = true -> Binary64.gt b c = true -> Binary64.gt a c = true.
Proof.
  intros Ha Hb Hc Hab Hbc.
  apply (binary64_gt_rank a b Ha Hb) in Hab.
  apply (binary64_gt_rank b c Hb Hc) in Hbc.
  apply (binary64_gt_rank a c Ha Hc).
  unfold Binary64.lt3 in *.
  destruct (Binary64.rank a) as [[a1 a2] a3], (Binary64.rank b) as [[b1 b2] b3],
    (Binary64.rank c) as [[c1 c2] c3].
  lia.
Qed.

Lemma binary64_gt_not_trans (a b c : Binary64.float) :
  Binary64.is_nan a = false -> Binary64.is_nan b = false ->
  Binary64.is_nan c = false ->
  Binary64.gt a b = false -> Binary64.gt b c = false -> Binary64.gt a c = false.
Proof.
  intros Ha Hb Hc Hab Hbc.
  apply not_true_iff_false. apply not_true_iff_false in Hab, Hbc.
  rewrite (binary64_gt_rank a b Ha Hb) in Hab.
  rewrite (binary64_gt_rank b c Hb Hc) in Hbc.
  rewrite (binary64_gt_rank a c Ha Hc).
  unfold Binary64.lt3 in *.
  destruct (Binary64.rank a) as [[a1 a2] a3], (Binary64.rank b) as [[b1 b2] b3],
    (Binary64.rank c) as [[c1 c2] c3].
  lia.
Qed.

(** On [close_scores_input] the two complete schedules have the same
    exact score, 57/80, and the search over exact scores keeps the first;
    their binary64 scores are 0.7124999999999999 and 0.7125, and the
    search over binary64 scores returns the second. *)
Lemma close_scores_searches :
  score_activity_combination (optimization close_scores_input)
    [lecture_mon_1900; tutorial_fri_0900] = Some (Fin (11819520000 # 16588800000)) /\
  score_activity_combination (optimization close_scores_input)
    [lecture_mon_1900; tutorial_mon_2000] = Some (Fin (11819520000 # 16588800000)) /\
  (11819520000 # 16588800000 == 57 # 80)%Q /\
  TimetableOptimizer.optimize_timetable close_scores_input =
    Some [lecture_mon_1900; tutorial_fri_0900] /\
  Binary64.score_activity_combination (optimization close_scores_input)
    [lecture_mon_1900; tutorial_fri_0900] =
    Some (SpecFloat.S754_finite false 6417629469002956 (-53)) /\
  Binary64.score_activity_combination (optimization close_scores_input)
    [lecture_mon_1900; tutorial_mon_2000] =
    Some (SpecFloat.S754_finite false 6417629469002957 (-53)) /\
  Binary64.optimize_timetable close_scores_input =
    Some [lecture_mon_1900; tutorial_mon_2000].
Proof.
  repeat split; vm_compute; reflexivity.
Qed.

Lemma search_returns_first_maximum_witness :
  (catalog_ok sample_input = true /\
   exists best s_best pre post,
     AnyFloat.optimize_timetable pyfloat
       (score_activity_combination (optimization sample_input)) pf_gtb NegInf
       sample_input = Some best /\
     catalog_schedules sample_input = pre ++ best :: post /\
     score_activity_combination (optimization sample_input) best = Some s_best /\
     (forall c, In c pre ->
        exists s, score_activity_combination (optimization sample_input) c = Some s /\
                  pf_gtb s_best s = true) /\
     (forall c, In c post ->
        exists s, score_activity_combination (optimization sample_input) c = Some s /\
                  pf_gtb s s_best = false)) /\
  (exists best s_best pre post,
     AnyFloat.optimize_timetable Binary64.float
       (Binary64.score_activity_combination (optimization close_scores_input))
       Binary64.gt Binary64.neg_inf close_scores_input = Some best /\
     catalog_schedules close_scores_input = pre ++ best :: post /\
     Binary64.score_activity_combination (optimization close_scores_input) best =
       Some s_best /\
     (forall c, In c pre ->
        exists s, Binary64.score_activity_combination
                    (optimization close_scores_input) c = Some s /\
                  Binary64.gt s_best s = true) /\
     (forall c, In c post ->
        exists s, Binary64.score_activity_combination
                    (optimization close_scores_input) c = Some s /\
                  Binary64.gt s s_best = false)).
Proof.
  split.
  - assert (Hok : catalog_ok sample_input = true) by reflexivity.
    split; [exact Hok|].
    apply (search_returns_first_maximum pyfloat
             (score_activity_combination (optimization sample_input))
             pf_gtb NegInf (fun _ => True) sample_input).
    + intros a b c _ _ _. apply pf_gtb_trans.
    + intros a b c _ _ _. apply pf_gtb_not_trans.
    + exact I.
    + intros c Hc. exact (catalog_schedules_scored sample_input c Hok Hc).
  - apply (search_returns_first_maximum Binary64.float
             (Binary64.score_activity_combination (optimization close_scores_input))
             Binary64.gt Binary64.neg_inf
             (fun s => Binary64.is_nan s = false) close_scores_input).
    + exact binary64_gt_trans.
    + exact binary64_gt_not_trans.
    + reflexivity.
    + intros c Hc.
      change (catalog_schedules close_scores_input)
        with [[lecture_mon_1900; tutorial_fri_0900];
              [lecture_mon_1900; tutorial_mon_2000]] in Hc.
      destruct Hc as [<- | [<- | []]]; eexists;
        (split; [vm_compute; reflexivity |
                 split; [reflexivity | intros _; reflexivity]]).
Defined.

(** ** Day avoidance matches on three letters, whatever their case *)

Lemma in_all_ascii (a : ascii) : In a all_ascii.
Proof.
  unfold all_ascii. rewrite <- (ascii_nat_embedding a).
  apply in_map, in_seq. pose proof (nat_ascii_bounded a). lia.
Qed.

Lemma lower_ascii_same_letter (a b : ascii) :
  PyStr.lower_ascii a = PyStr.lower_ascii b <-> same_letter_ci a b = true.
Proof.
  assert (Hall : forallb
                   (fun x =>
                      forallb
                        (fun y =>
                           Bool.eqb
                             (Ascii.eqb (PyStr.lower_ascii x) (PyStr.lower_ascii y))
                             (same_letter_ci x y)) all_ascii) all_ascii = true)
    by (vm_compute; reflexivity).
  rewrite forallb_forall in Hall. specialize (Hall a (in_all_ascii a)).
  rewrite forallb_forall in Hall. specialize (Hall b (in_all_ascii b)).
  apply Bool.eqb_prop in Hall. rewrite <- Hall. symmetry. apply Ascii.eqb_eq.
Qed.

Lemma same_prefix_ci_day_key (n : nat) :
  forall s t,
    same_prefix_ci n s t = true <->
    PyStr.take n (PyStr.lower s) = PyStr.take n (PyStr.lower t).
Proof.
  induction n as [|n IH]; intros s t; simpl.
  - destruct (PyStr.lower s), (PyStr.lower t); split; reflexivity.
  - destruct s as [|a s], t as [|b t]; simpl.
    + split; reflexivity.
    + split; discriminate.
    + split; discriminate.
    + rewrite andb_true_iff, <- lower_ascii_same_letter, IH. split.
      * intros [-> ->]. reflexivity.
      * intros H. inversion H. auto.
Qed.

(** C10: on ASCII day names the day-avoidance score is 0 exactly when the
    first three characters of the activity's day agree, up to letter
    case, with the first three characters of some entry of [avoidDays];
    so each of "Tuesday", "tue" and "TUE" penalizes an activity on "Tue",
    while entries that differ within their first three characters, or
    stop short of three, do not. *)
Theorem score_avoid_days_three_letters :
  (forall o a,
      is_ascii (day_of_week a) = true ->
      forallb is_ascii (avoidDays o) = true ->
      (score_avoid_days o a = 0%Q <->
       exists d, In d (avoidDays o) /\
                 same_prefix_ci 3 d (day_of_week a) = true)) /\
  (forall o a d,
      day_of_week a = "Tue" ->
      In d ["Tuesday"; "tue"; "TUE"] ->
      In d (avoidDays o) ->
      score_avoid_days o a = 0%Q) /\
  (forall o a,
      day_of_week a = "Tue" ->
      avoidDays o = ["Thu"; "monday"; "Tu"; "T"; "uesday"] ->
      score_avoid_days o a = 1%Q).
Proof.
  split; [|split].
  - intros o a _ _. rewrite score_avoid_days_zero, in_map_iff.
    unfold day_key. split; intros [d [H1 H2]]; exists d.
    + split; [exact H2 | now apply same_prefix_ci_day_key].
    + split; [now apply same_prefix_ci_day_key | exact H1].
  - intros o a d Hday Hd Hin. apply score_avoid_days_zero.
    apply in_map_iff. exists d. split; [|exact Hin]. rewrite Hday.
    destruct Hd as [<- | [<- | [<- | []]]]; reflexivity.
  - intros o a Hday Havoid. unfold score_avoid_days.
    rewrite Hday, Havoid. reflexivity.
Qed.

Lemma score_avoid_days_three_letters_witness :
  is_ascii "Thu" = true /\
  forallb is_ascii (avoidDays (optimization sample_input)) = true /\
  (score_avoid_days (optimization sample_input)
     (mk_activity "INTS3003-S1C-ND-CC" "Lecture" "01" "Thu" "09:00" "120") = 0%Q <->
   exists d, In d (avoidDays (optimization sample_input)) /\
             same_prefix_ci 3 d "Thu" = true).
Proof.
  split; [reflexivity|]. split; [reflexivity|].
  exact (proj1 score_avoid_days_three_letters (optimization sample_input)
           (mk_activity "INTS3003-S1C-ND-CC" "Lecture" "01" "Thu" "09:00" "120")
           eq_refl eq_refl).
Defined.

(** * Malformed times, and the lines returned *)

Lemma length_split_aux (sep : ascii) (s : string) :
  forall cur,
    List.length (PyStr.split_aux sep s cur) = S (count_char sep s).
Proof.
  induction s as [|c s IH]; intros cur; simpl; [reflexivity|].
  destruct (Ascii.eqb c sep); simpl; now rewrite IH.
Qed.

Lemma time_to_minutes_colons (s : string) :
  count_char ":" s <> 1%nat -> time_to_minutes s = None.
Proof.
  intros Hcount. unfold time_to_minutes.
  pose proof (length_split_aux ":" s EmptyString) as Hlen.
  fold (PyStr.split ":" s) in Hlen.
  destruct (PyStr.split ":" s) as [|h [|m [|x l]]]; try reflexivity.
  simpl in Hlen. congruence.
Qed.

(** X4: [time_to_minutes] raises on every text whose number of colons is
    not one.  On two plain decimal numerals (an optional sign and digits,
    at most 4300 characters, which [int] converts) around one colon it
    returns sixty times the first plus the second, and no range is
    checked: an hour above 23, a minute above 59 or a negative field is
    accepted. *)
Theorem time_to_minutes_one_colon :
  (forall s, count_char ":" s <> 1%nat -> time_to_minutes s = None) /\
  (forall h m hh mm,
      (String.length h <= 4300)%nat -> (String.length m <= 4300)%nat ->
      PyStr.int h = Some hh -> PyStr.int m = Some mm ->
      time_to_minutes (h ++ ":" ++ m) = Some (hh * 60 + mm)).
Proof.
  split; [exact time_to_minutes_colons|].
  intros h m hh mm _ _. apply time_to_minutes_fields.
Qed.

Lemma time_to_minutes_one_colon_witness :
  count_char ":" "09.30" <> 1%nat /\
  time_to_minutes "09.30" = None /\
  PyStr.int "25" = Some 25 /\ PyStr.int "-7" = Some (-7) /\
  time_to_minutes "25:-7" = Some (25 * 60 + -7).
Proof.
  assert (Hc : count_char ":" "09.30" <> 1%nat) by discriminate.
  split; [exact Hc|].
  split; [exact (proj1 time_to_minutes_one_colon "09.30" Hc)|].
  split; [reflexivity|]. split; [reflexivity|].
  apply (proj2 time_to_minutes_one_colon "25" "-7" 25 (-7));
    solve [reflexivity | simpl; lia].
Defined.

Lemma binary64_score_time_restrictions_colons (o : Optimization) (a : Activity) :
  count_char ":" (start_time a) <> 1%nat ->
  Binary64.score_time_restrictions o a = None.
Proof.
  intros Hcount. unfold Binary64.score_time_restrictions.
  now rewrite (time_to_minutes_colons _ Hcount).
Qed.

(** X11: [score_activity_combination] returns negative infinity on the
    empty schedule whatever the preferences, and raises on every schedule
    that contains an activity whose start time has not exactly one colon,
    wherever the activity stands in the schedule.  The scorer over
    binary64 numbers does the same. *)
Theorem score_activity_combination_bad_time (o : Optimization) :
  score_activity_combination o [] = Some NegInf /\
  Binary64.score_activity_combination o [] = Some Binary64.neg_inf /\
  (forall l a,
      In a l -> count_char ":" (start_time a) <> 1%nat ->
      score_activity_combination o l = None /\
      Binary64.score_activity_combination o l = None).
Proof.
  split; [reflexivity|]. split; [reflexivity|].
  intros l a Hin Hcount. split.
  - apply score_raises_iff. exists a. split; [exact Hin|].
    unfold activity_ok. now rewrite (time_to_minutes_colons _ Hcount).
  - destruct l as [|b l]; [contradiction|].
    unfold Binary64.score_activity_combination.
    destruct (Binary64.of_int _) as [len|]; [|reflexivity]. cbn [bind].
    destruct (Binary64.truediv _ len) as [avoid|]; [|reflexivity]. cbn [bind].
    now rewrite (mapM_raises _ _ a Hin
                   (binary64_score_time_restrictions_colons o a Hcount)).
Qed.

Lemma score_activity_combination_bad_time_witness :
  In (mk_activity "S" "Tutorial" "02" "Tue" "11.30" "30")
    [lecture_mon; mk_activity "S" "Tutorial" "02" "Tue" "11.30" "30"] /\
  count_char ":" "11.30" <> 1%nat /\
  score_activity_combination (optimization tie_input)
    [lecture_mon; mk_activity "S" "Tutorial" "02" "Tue" "11.30" "30"] = None /\
  Binary64.score_activity_combination (optimization tie_input)
    [lecture_mon; mk_activity "S" "Tutorial" "02" "Tue" "11.30" "30"] = None.
Proof.
  assert (Hin : In (mk_activity "S" "Tutorial" "02" "Tue" "11.30" "30")
                  [lecture_mon; mk_activity "S" "Tutorial" "02" "Tue" "11.30" "30"])
    by (simpl; auto).
  assert (Hc : count_char ":" "11.30" <> 1%nat) by discriminate.
  split; [exact Hin|]. split; [exact Hc|].
  exact (proj2 (proj2 (score_activity_combination_bad_time (optimization tie_input)))
           _ _ Hin Hc).
Defined.

Lemma catalog_ok_activity (data : Data) (a : Activity) :
  catalog_ok data = true -> In a (catalog_activities data) ->
  activity_ok a = true.
Proof.
  unfold catalog_ok, catalog_activities. intros Hok Ha.
  apply in_flat_map in Ha as [subj [Hsubj Ha]].
  rewrite forallb_forall in Hok. specialize (Hok subj Hsubj).
  rewrite forallb_forall in Hok. now apply Hok.
Qed.

(** X12: one activity whose start time has not exactly one colon makes
    the search raise, and the module-level function with it, whichever
    subject and group the activity belongs to and however it would have
    scored: every activity of the catalog occurs in some complete
    schedule, and every complete schedule is scored. *)
Theorem optimize_timetable_raises_on_bad_time (data : Data) (a : Activity) :
  In a (catalog_activities data) ->
  count_char ":" (start_time a) <> 1%nat ->
  TimetableOptimizer.optimize_timetable data = None /\
  Optimal.optimize_timetable data = None.
Proof.
  intros Ha Hcount.
  assert (Hbad : catalog_ok data = false).
  { destruct (catalog_ok data) eqn:Hok; [|reflexivity].
    pose proof (catalog_ok_activity data a Hok Ha) as Hact.
    unfold activity_ok in Hact.
    now rewrite (time_to_minutes_colons _ Hcount) in Hact. }
  apply run_search_raises_iff in Hbad.
  unfold Optimal.optimize_timetable, TimetableOptimizer.optimize_timetable.
  rewrite Hbad. split; reflexivity.
Qed.

Lemma optimize_timetable_raises_on_bad_time_witness :
  In (mk_activity "S" "Tutorial" "02" "Tue" "11.30" "30")
    (catalog_activities dotted_time_input) /\
  count_char ":" "11.30" <> 1%nat /\
  TimetableOptimizer.optimize_timetable dotted_time_input = None /\
  Optimal.optimize_timetable dotted_time_input = None.
Proof.
  assert (Hin : In (mk_activity "S" "Tutorial" "02" "Tue" "11.30" "30")
                  (catalog_activities dotted_time_input))
    by (simpl; auto).
  assert (Hc : count_char ":" "11.30" <> 1%nat) by discriminate.
  split; [exact Hin|]. split; [exact Hc|].
  exact (optimize_timetable_raises_on_bad_time dotted_time_input _ Hin Hc).
Defined.

(** X15: on a catalog whose activities parse, the module-level
    [optimize_timetable] returns the rendered lines of a schedule that
    takes one candidate from each group of the catalog: as many lines as
    the catalog has groups, in lexicographic order. *)
Theorem optimize_timetable_lines (data : Data) :
  catalog_ok data = true ->
  exists best lines,
    Optimal.optimize_timetable data = Some lines /\
    Forall2 (candidate_of data) (catalog_group_keys data) best /\
    Permutation (map format_activity best) lines /\
    StronglySorted str_le lines /\
    List.length lines = catalog_group_count data.
Proof.
  intros Hok.
  destruct (run_search_first_maximum data Hok)
    as [st [pre [post [Hrun [_ [Hcs _]]]]]].
  exists (best_combination st), (format_output (best_combination st)).
  unfold Optimal.optimize_timetable, TimetableOptimizer.optimize_timetable.
  rewrite Hrun. cbn [bind].
  split; [reflexivity|].
  assert (Hin : In (best_combination st) (catalog_schedules data))
    by (rewrite <- complete_schedules_catalog, Hcs; apply in_elt).
  apply catalog_schedule_candidates in Hin.
  split; [exact Hin|].
  rewrite format_output_sorted_map.
  split; [apply sorted_perm|]. split; [apply sorted_sorted|].
  rewrite <- (Permutation_length (sorted_perm _)), length_map.
  rewrite <- (Forall2_length Hin). apply length_catalog_group_keys.
Qed.

Lemma optimize_timetable_lines_witness :
  catalog_ok sample_input = true /\
  catalog_group_count sample_input = 4%nat /\
  exists best lines,
    Optimal.optimize_timetable sample_input = Some lines /\
    Forall2 (candidate_of sample_input) (catalog_group_keys sample_input) best /\
    Permutation (map format_activity best) lines /\
    StronglySorted str_le lines /\
    List.length lines = catalog_group_count sample_input.
Proof.
  split; [reflexivity|]. split; [reflexivity|].
  apply (optimize_timetable_lines sample_input). reflexivity.
Defined.
